(** * kctx: a shallow embedding of [src/k8s/kctx.py]

    The helper wraps [kubectl config]: it remembers the context that was
    current before the last switch in [~/.config/kctx/state.json], reads
    environment labels from [~/.config/kctx/config.toml], and warns when a
    switch lands on a context labelled [prod].

    The embedding threads an explicit [World] (the external tool's state, the
    log of subprocess calls, the files, the log of file mutations and the two
    output streams) through a state-and-exception monad.  The Python runtime
    pieces the script only calls ([subprocess.run], [json.loads],
    [json.dumps], [tomllib.loads]) are the fields of the [Platform] class. *)

From Stdlib Require Import ZArith Ascii String List.
From stdpp Require Import base option list sorting strings pretty gmap fin_maps.

Local Open Scope Z_scope.
#[local] Set Warnings "-register-all".

(** ** Python string primitives

    A [str] is modelled by a Rocq [string]: a sequence of bytes, ASCII for the
    characters the script inspects, UTF-8 for anything else.  Case mapping and
    white space outside ASCII are not modelled. *)

Module Py.

(** The ASCII characters for which [str.isspace] holds. *)
Definition isspace (c : ascii) : bool :=
  let n := nat_of_ascii c in
  ((9 <=? n)%nat && (n <=? 13)%nat) || ((28 <=? n)%nat && (n <=? 32)%nat).

Fixpoint lstrip (s : string) : string :=
  match s with
  | String c r => if isspace c then lstrip r else s
  | EmptyString => EmptyString
  end.

(** [rstrip] drops a trailing run of white space: a space is kept exactly when
    something that is kept follows it. *)
Fixpoint rstrip (s : string) : string :=
  match s with
  | String c r =>
      match rstrip r with
      | EmptyString => if isspace c then EmptyString else String c EmptyString
      | r' => String c r'
      end
  | EmptyString => EmptyString
  end.

(** [s.strip()] *)
Definition strip (s : string) : string := rstrip (lstrip s).

Definition lower_char (c : ascii) : ascii :=
  let n := nat_of_ascii c in
  if ((65 <=? n)%nat && (n <=? 90)%nat)%bool then ascii_of_nat (n + 32) else c.

(** [s.lower()] *)
Fixpoint lower (s : string) : string :=
  match s with
  | String c r => String (lower_char c) (lower r)
  | EmptyString => EmptyString
  end.

Fixpoint contains_char (c : ascii) (s : string) : bool :=
  match s with
  | String d r => if Ascii.eqb c d then true else contains_char c r
  | EmptyString => false
  end.

Definition hex_digit (n : nat) : ascii :=
  if (n <? 10)%nat then ascii_of_nat (48 + n) else ascii_of_nat (87 + n).

Definition backslash : ascii := "\"%char.
Definition squote : ascii := "'"%char.
Definition dquote : ascii := ascii_of_nat 34.

Definition repr_char (quote c : ascii) : string :=
  let n := nat_of_ascii c in
  if (Ascii.eqb c quote || Ascii.eqb c backslash)%bool
  then String backslash (String c EmptyString)
  else if (n =? 9)%nat then String backslash "t"
  else if (n =? 10)%nat then String backslash "n"
  else if (n =? 13)%nat then String backslash "r"
  else if ((n <? 32)%nat || (n =? 127)%nat)%bool
  then String backslash
         (String "x" (String (hex_digit (n / 16)) (String (hex_digit (n mod 16)) EmptyString)))
  else String c EmptyString.

Fixpoint repr_body (quote : ascii) (s : string) : string :=
  match s with
  | String c r => repr_char quote c +:+ repr_body quote r
  | EmptyString => EmptyString
  end.

(** [repr(s)], what [{s!r}] puts in an f-string: single quotes, unless the
    text has a single quote and no double quote. *)
Definition repr (s : string) : string :=
  let quote :=
    if (contains_char squote s && negb (contains_char dquote s))%bool
    then dquote else squote in
  String quote (repr_body quote s +:+ String quote EmptyString).

(** [sep.join(parts)] *)
Fixpoint join (sep : string) (parts : list string) : string :=
  match parts with
  | [] => EmptyString
  | [p] => p
  | p :: rest => p +:+ sep +:+ join sep rest
  end.

(** [not s] for a string: true exactly on the empty one. *)
Definition is_empty (s : string) : bool :=
  match s with EmptyString => true | _ => false end.

(** [a or b] on strings. *)
Definition or_else (a b : string) : string := if is_empty a then b else a.

(** The ASCII characters at which [str.splitlines] breaks a line: line feed,
    vertical tab, form feed, carriage return and the three separators
    [\x1c], [\x1d], [\x1e].  The line breaks outside ASCII are not
    modelled. *)
Definition is_linebreak (c : ascii) : bool :=
  let n := nat_of_ascii c in
  ((10 <=? n)%nat && (n <=? 13)%nat) || ((28 <=? n)%nat && (n <=? 30)%nat).

Definition is_cr (c : ascii) : bool := (nat_of_ascii c =? 13)%nat.
Definition is_lf (c : ascii) : bool := (nat_of_ascii c =? 10)%nat.

(** [s.splitlines()]: the lines without their breaks; a carriage return
    followed by a line feed is one break, and a break at the very end opens
    no further line. *)
Fixpoint splitlines (s : string) : list string :=
  match s with
  | EmptyString => []
  | String c r =>
      if is_linebreak c then
        EmptyString
        :: splitlines
             match r with
             | String d r' => if (is_cr c && is_lf d)%bool then r' else r
             | EmptyString => r
             end
      else
        match splitlines r with
        | [] => [String c EmptyString]
        | line :: lines => String c line :: lines
        end
  end.

(** A byte that continues a UTF-8 sequence. *)
Definition is_continuation (c : ascii) : bool := (nat_of_ascii c / 64 =? 2)%nat.

(** [len(s)]: the number of characters, one per UTF-8 sequence. *)
Fixpoint len (s : string) : nat :=
  match s with
  | String c r => if is_continuation c then len r else S (len r)
  | EmptyString => O
  end.

(** [" " * n] *)
Fixpoint spaces (n : nat) : string :=
  match n with
  | O => EmptyString
  | S n' => String " " (spaces n')
  end.

(** [f"{s:width}"]: a string is left-aligned and padded with spaces. *)
Definition ljust (width : nat) (s : string) : string := s +:+ spaces (width - len s).

End Py.

(** ** Values read from the two files *)

(** What [json.loads] returns.  A float is carried as its [repr]; an object
    as its items in the order of the [dict] (distinct keys). *)
Inductive json : Type :=
  | JNull
  | JBool (b : bool)
  | JInt (z : Z)
  | JFloat (repr : string)
  | JString (s : string)
  | JArray (elems : list json)
  | JObject (items : list (string * json)).

(** [repr(v)] of a value that came out of [json.loads]. *)
Fixpoint json_repr (v : json) : string :=
  match v with
  | JNull => "None"
  | JBool true => "True"
  | JBool false => "False"
  | JInt z => pretty z
  | JFloat r => r
  | JString s => Py.repr s
  | JArray l => "[" +:+ Py.join ", " (map json_repr l) +:+ "]"
  | JObject l =>
      "{" +:+ Py.join ", " (map (λ kv, Py.repr kv.1 +:+ ": " +:+ json_repr kv.2) l) +:+ "}"
  end.

(** [str(v)]: the text itself for a string, [repr(v)] for everything else. *)
Definition py_str (v : json) : string :=
  match v with
  | JString s => s
  | _ => json_repr v
  end.

(** What [tomllib.loads] returns, as far as [load_labels] looks: strings,
    tables, and everything else. *)
Inductive toml : Type :=
  | TString (s : string)
  | TTable (items : list (string * toml))
  | TOther.

(** [d.get(key)] on the items of a [dict]. *)
Fixpoint items_get {V : Type} (key : string) (items : list (string * V)) : option V :=
  match items with
  | [] => None
  | (k, v) :: rest => if decide (k = key) then Some v else items_get key rest
  end.

(** ** The platform: what the script calls and does not define *)

(** [subprocess.CompletedProcess], with [text=True]. *)
Record CompletedProcess : Type := {
  returncode : Z;
  stdout : string;
  stderr : string;
}.

Class Platform : Type := {
  (** the state of whatever [kubectl] talks to *)
  kube_state : Type;
  (** [subprocess.run(argv, check=False, stdout=PIPE, stderr=PIPE, text=True)] *)
  subprocess_run : kube_state → list string → CompletedProcess * kube_state;
  (** [json.loads(text)]; [None] when it raises *)
  json_loads : string → option json;
  (** [json.dumps(state, indent=.., sort_keys=..)] on a [Dict[str, str]] *)
  json_dumps : gmap string string → nat → bool → string;
  (** the module [tomllib] (or [tomli]), [None] when neither imports;
      its [loads] gives the items of the top-level table, [None] when it raises *)
  tomllib : option (string → option (list (string * toml)));
}.

(** ** Files

    The file system maps a path to what is there.  Reading and writing look
    at the path itself; [mkdir] also looks at the directories above it. *)

(** A directory, a file with its text, or a file that cannot be read as
    UTF-8 text. *)
Inductive Node : Type :=
  | Dir
  | Text (content : string)
  | Unreadable.

(** The primitive mutations of the file system, as a reader of it sees them. *)
Inductive FsOp : Type :=
  | OpMkdir (path : string)
  | OpTruncate (path : string)
  | OpWrite (path : string) (data : string).

Definition apply_op (op : FsOp) (files : gmap string Node) : gmap string Node :=
  match op with
  | OpMkdir p => <[p := Dir]> files
  | OpTruncate p => <[p := Text EmptyString]> files
  | OpWrite p data => <[p := Text data]> files
  end.

(** The file system after a run of mutations, oldest first. *)
Definition replay (ops : list FsOp) (files : gmap string Node) : gmap string Node :=
  foldl (λ fs op, apply_op op fs) files ops.


Record KctxPaths : Type := {
  base_dir : string;
  state_file : string;
  config_file : string;
}.

Definition KCTX_DIR : string := ".config/kctx".
Definition STATE_FILE_NAME : string := "state.json".
Definition CONFIG_FILE_NAME : string := "config.toml".

(** [Path / name] *)
Definition path_join (dir name : string) : string := dir +:+ "/" +:+ name.

(** The text of [path] before its last [/], if it has one. *)
Fixpoint path_dirname (path : string) : option string :=
  match path with
  | EmptyString => None
  | String c rest =>
      match path_dirname rest with
      | Some dir => Some (String c dir)
      | None => if Ascii.eqb c "/" then Some EmptyString else None
      end
  end.

(** [path.parent]: the root and [.] are their own parents. *)
Definition path_parent (path : string) : string :=
  match path_dirname path with
  | Some EmptyString => "/"
  | Some dir => dir
  | None => "."
  end.

Fixpoint parents_from (fuel : nat) (path : string) : list string :=
  match fuel with
  | O => []
  | S fuel =>
      let up := path_parent path in
      if String.eqb up path then [] else up :: parents_from fuel up
  end.

(** [path.parents]: the directories above [path], the nearest first, up to
    the root or to [.]; a parent is shorter than its child, so the length of
    the path bounds the walk. *)
Definition path_parents (path : string) : list string :=
  parents_from (S (String.length path)) path.

Definition determine_paths (home_dir : string) : KctxPaths :=
  let base_dir := path_join home_dir KCTX_DIR in
  let state_file := path_join base_dir STATE_FILE_NAME in
  let config_file := path_join base_dir CONFIG_FILE_NAME in
  {| base_dir := base_dir; state_file := state_file; config_file := config_file |}.

(** ** The world and the monad of commands *)

(** The exceptions in play, by the class an [except] clause can tell apart:
    [RuntimeError] is what the adapter raises; [OSError] stands for
    [FileNotFoundError], [IsADirectoryError] and [FileExistsError];
    [ValueError] for [UnicodeDecodeError] and the decode errors of [json] and
    [tomllib]. *)
Inductive Exn : Type :=
  | RuntimeError (msg : string)
  | OSError
  | ValueError.

(** [except RuntimeError] *)
Definition is_RuntimeError (e : Exn) : bool :=
  match e with RuntimeError _ => true | _ => false end.

(** [except Exception] *)
Definition is_Exception (e : Exn) : bool := true.

(** [str(error)] *)
Definition exn_str (e : Exn) : string :=
  match e with RuntimeError msg => msg | _ => EmptyString end.

Inductive Res (A : Type) : Type :=
  | Ok (a : A)
  | Raise (e : Exn).
Arguments Ok {A} a.
Arguments Raise {A} e.

Section Kctx.
Context `{Platform}.

Record World : Type := {
  kube : kube_state;
  (** every subprocess that ran, oldest first, with what it returned *)
  calls : list (list string * CompletedProcess);
  files : gmap string Node;
  (** every mutation of the file system, oldest first *)
  fs_ops : list FsOp;
  (** what [print] sent to each stream, one entry per call *)
  sys_stdout : list string;
  sys_stderr : list string;
  stdout_isatty : bool;
  stderr_isatty : bool;
}.

Definition M (A : Type) : Type := World → Res A * World.

#[export] Instance M_ret : MRet M := λ A a w, (Ok a, w).

#[export] Instance M_bind : MBind M := λ A B f m w,
  match m w with
  | (Ok a, w') => f a w'
  | (Raise e, w') => (Raise e, w')
  end.

Definition raise {A : Type} (e : Exn) : M A := λ w, (Raise e, w).

(** [try: body / except <catches> as error: handler] *)
Definition try_except {A : Type} (body : M A) (catches : Exn → bool) (handler : Exn → M A) : M A :=
  λ w,
    match body w with
    | (Ok a, w') => (Ok a, w')
    | (Raise e, w') => if catches e then handler e w' else (Raise e, w')
    end.

Definition record_call (argv : list string) (completed : CompletedProcess)
    (k : kube_state) (w : World) : World :=
  {| kube := k; calls := calls w ++ [(argv, completed)]; files := files w;
     fs_ops := fs_ops w; sys_stdout := sys_stdout w; sys_stderr := sys_stderr w;
     stdout_isatty := stdout_isatty w; stderr_isatty := stderr_isatty w |}.

Definition record_op (op : FsOp) (w : World) : World :=
  {| kube := kube w; calls := calls w; files := apply_op op (files w);
     fs_ops := fs_ops w ++ [op]; sys_stdout := sys_stdout w; sys_stderr := sys_stderr w;
     stdout_isatty := stdout_isatty w; stderr_isatty := stderr_isatty w |}.

Definition to_stdout (text : string) (w : World) : World :=
  {| kube := kube w; calls := calls w; files := files w; fs_ops := fs_ops w;
     sys_stdout := sys_stdout w ++ [text]; sys_stderr := sys_stderr w;
     stdout_isatty := stdout_isatty w; stderr_isatty := stderr_isatty w |}.

Definition to_stderr (text : string) (w : World) : World :=
  {| kube := kube w; calls := calls w; files := files w; fs_ops := fs_ops w;
     sys_stdout := sys_stdout w; sys_stderr := sys_stderr w ++ [text];
     stdout_isatty := stdout_isatty w; stderr_isatty := stderr_isatty w |}.

Definition subprocess (argv : list string) : M CompletedProcess := λ w,
  let '(completed, k) := subprocess_run (kube w) argv in
  (Ok completed, record_call argv completed k w).

Definition mutate (op : FsOp) : M unit := λ w, (Ok tt, record_op op w).

(** [print(text)]; the newline that [print] adds is left out. *)
Definition print_out (text : string) : M unit := λ w, (Ok tt, to_stdout text w).

(** [print(text, file=sys.stderr)] *)
Definition print_err (text : string) : M unit := λ w, (Ok tt, to_stderr text w).

(** [path.exists()], taken as a total test. *)
Definition path_exists (path : string) : M bool := λ w,
  (Ok (bool_decide (is_Some (files w !! path))), w).

(** [path.read_text(encoding="utf-8")]: raises on a missing file, on a
    directory, and on bytes that do not decode. *)
Definition read_text (path : string) : M string := λ w,
  match files w !! path with
  | Some (Text content) => (Ok content, w)
  | Some Unreadable => (Raise ValueError, w)
  | Some Dir | None => (Raise OSError, w)
  end.

(** [path.mkdir(parents=True, exist_ok=True)] on a path followed by its
    ancestors.  On a directory there is nothing to do ([exist_ok]); a file in
    the place of the path or of an ancestor raises ([FileExistsError],
    [NotADirectoryError]).  Where nothing is, the parent is made first with
    the same call and the directory after it; above the root or [.] there is
    no parent to make ([FileNotFoundError]). *)
Fixpoint mkdir_chain (chain : list string) : M unit :=
  match chain with
  | [] => raise OSError
  | path :: above => λ w,
      match files w !! path with
      | Some Dir => (Ok tt, w)
      | Some _ => (Raise OSError, w)
      | None => (mkdir_chain above;; mutate (OpMkdir path)) w
      end
  end.

Definition mkdir (path : string) : M unit :=
  mkdir_chain (path :: path_parents path).

(** [path.write_text(data, encoding="utf-8")]: the file is opened with mode
    ["w"], which truncates it, and the data is written through the open
    handle afterwards; [IsADirectoryError] on a directory.  The script writes
    the state file only, right after [ensure_base_dir] has returned, so the
    directory of the file is there and is not looked at again. *)
Definition write_text (path data : string) : M unit := λ w,
  match files w !! path with
  | Some Dir => (Raise OSError, w)
  | _ => (mutate (OpTruncate path);; mutate (OpWrite path data)) w
  end.

(** ** The script *)

Definition ensure_base_dir (paths : KctxPaths) : M unit :=
  mkdir (base_dir paths).

Definition run_kubectl (args : list string) : M CompletedProcess :=
  let full_args := "kubectl" :: args in
  subprocess full_args.

Definition get_current_context : M (option string) :=
  completed ← run_kubectl ["config"; "current-context"];
  if negb (returncode completed =? 0) then mret None
  else
    let context_name := Py.strip (stdout completed) in
    if Py.is_empty context_name then mret None
    else mret (Some context_name).

Definition use_context (name : string) : M unit :=
  completed ← run_kubectl ["config"; "use-context"; name];
  if negb (returncode completed =? 0) then
    let error_message := Py.or_else (Py.strip (stderr completed)) "kubectl failed" in
    raise (RuntimeError
             ("Failed to switch context to " +:+ Py.repr name +:+ ": " +:+ error_message))
  else mret tt.

Definition rename_context (old new : string) : M unit :=
  completed ← run_kubectl ["config"; "rename-context"; old; new];
  if negb (returncode completed =? 0) then
    let error_message := Py.or_else (Py.strip (stderr completed)) "kubectl failed" in
    raise (RuntimeError
             ("Failed to rename context " +:+ Py.repr old +:+ " → " +:+ Py.repr new
              +:+ ": " +:+ error_message))
  else mret tt.

Definition delete_context (name : string) : M unit :=
  completed ← run_kubectl ["config"; "delete-context"; name];
  if negb (returncode completed =? 0) then
    let error_message := Py.or_else (Py.strip (stderr completed)) "kubectl failed" in
    raise (RuntimeError
             ("Failed to delete context " +:+ Py.repr name +:+ ": " +:+ error_message))
  else mret tt.

(** [{str(key): str(value) for key, value in state.items()}]; the keys of a
    parsed object are strings already. *)
Definition state_strings_of (items : list (string * json)) : gmap string string :=
  foldl (λ d kv, <[kv.1 := py_str kv.2]> d) ∅ items.

Definition load_state (paths : KctxPaths) : M (gmap string string) :=
  present ← path_exists (state_file paths);
  if negb present then mret ∅
  else
    try_except
      (raw_text ← read_text (state_file paths);
       state ← (match json_loads raw_text with
                | Some v => mret v
                | None => raise ValueError
                end);
       match state with
       | JObject items =>
           let state_strings := state_strings_of items in
           mret state_strings
       | _ => mret ∅
       end)
      is_Exception
      (λ _, mret ∅).

Definition save_state (paths : KctxPaths) (state : gmap string string) : M unit :=
  ensure_base_dir paths;;
  let text := json_dumps state 2 true in
  write_text (state_file paths) text.

Definition record_last_context (paths : KctxPaths) (current : option string) : M unit :=
  match current with
  | None => mret tt
  | Some current =>
      state ← load_state paths;
      let new_state := <["last_context" := current]> state in
      save_state paths new_state
  end.

Definition get_last_context (paths : KctxPaths) : M (option string) :=
  state ← load_state paths;
  let raw_last := state !! "last_context" in
  match raw_last with
  | None => mret None
  | Some raw_last => mret (Some raw_last)
  end.

(** One turn of the loop of [load_labels] over [contexts_table.items()]. *)
Definition add_label (labels : gmap string string) (entry : string * toml) : gmap string string :=
  let '(ctx_name, cfg) := entry in
  match cfg with
  | TTable cfg_items =>
      match items_get "env" cfg_items with
      | Some (TString env) => <[ctx_name := env]> labels
      | _ => labels
      end
  | _ => labels
  end.

Definition load_labels (paths : KctxPaths) : M (gmap string string) :=
  match tomllib with
  | None => mret ∅
  | Some toml_loads =>
      present ← path_exists (config_file paths);
      if negb present then mret ∅
      else
        parsed ← try_except
                   (raw ← read_text (config_file paths);
                    match toml_loads raw with
                    | Some data => mret (Some data)
                    | None => raise ValueError
                    end)
                   is_Exception
                   (λ _, mret None);
        match parsed with
        | None => mret ∅
        | Some data =>
            match items_get "contexts" data with
            | Some (TTable contexts_table) => mret (foldl add_label ∅ contexts_table)
            | _ => mret ∅
            end
        end
  end.

Definition ESC : string := String (ascii_of_nat 27) EmptyString.
Definition ANSI_RESET : string := ESC +:+ "[0m".
Definition ANSI_RED : string := ESC +:+ "[31m".
Definition ANSI_GREEN : string := ESC +:+ "[32m".
Definition ANSI_YELLOW : string := ESC +:+ "[33m".
Definition ANSI_CYAN : string := ESC +:+ "[36m".

Definition format_env_label (env : string) (use_color : bool) : string :=
  let label := "[" +:+ env +:+ "]" in
  if negb use_color then label
  else
    let env_lower := Py.lower env in
    let color :=
      if String.eqb env_lower "prod" then ANSI_RED
      else if (String.eqb env_lower "dev" || String.eqb env_lower "development")%bool
      then ANSI_GREEN
      else if (String.eqb env_lower "stage" || String.eqb env_lower "staging")%bool
      then ANSI_YELLOW
      else ANSI_CYAN in
    color +:+ label +:+ ANSI_RESET.

Definition warn_if_prod (context : string) (paths : KctxPaths) : M unit :=
  labels ← load_labels paths;
  let env := labels !! context in
  match env with
  | None => mret tt
  | Some env =>
      if String.eqb (Py.lower env) "prod" then
        use_color ← (λ w, (Ok (stderr_isatty w), w));
        let env_label := format_env_label env use_color in
        print_err ("WARNING: context " +:+ Py.repr context +:+ " is labeled " +:+ env_label)
      else mret tt
  end.

(** The block that closes both branches of [switch_context_command]: query
    the current context again, print it with its label, warn on [prod]. *)
Definition announce_new_current (paths : KctxPaths) : M unit :=
  new_current ← get_current_context;
  match new_current with
  | Some new_current =>
      use_color ← (λ w, (Ok (stdout_isatty w), w));
      labels ← load_labels paths;
      let env := labels !! new_current in
      match env with
      | Some env =>
          let env_label := format_env_label env use_color in
          print_out (env_label +:+ " " +:+ new_current)
      | None => print_out new_current
      end;;
      warn_if_prod new_current paths
  | None => mret tt
  end.

(** The [try: ... except RuntimeError as error: print(...); return 1] of the
    three commands: [Some 1] is the early return, [None] falls through. *)
Definition or_report (call : M unit) : M (option Z) :=
  try_except (call;; mret None) is_RuntimeError
    (λ error, print_err (exn_str error);; mret (Some 1)).

Definition switch_context_command (paths : KctxPaths) (target : string) : M Z :=
  if String.eqb target "-" then
    current ← get_current_context;
    last ← get_last_context paths;
    match last with
    | None => print_err "No last context recorded yet.";; mret 1
    | Some last =>
        failed ← or_report (use_context last);
        match failed with
        | Some code => mret code
        | None =>
            match current with
            | Some _ => record_last_context paths current
            | None => mret tt
            end;;
            announce_new_current paths;;
            mret 0
        end
    end
  else
    current_before ← get_current_context;
    failed ← or_report (use_context target);
    match failed with
    | Some code => mret code
    | None =>
        match current_before with
        | Some _ => record_last_context paths current_before
        | None => mret tt
        end;;
        announce_new_current paths;;
        mret 0
    end.

Definition current_context_command : M Z :=
  current ← get_current_context;
  match current with
  | None => print_err "No current context";; mret 1
  | Some current => print_out current;; mret 0
  end.

Definition rename_context_command (old new : string) (paths : KctxPaths) : M Z :=
  failed ← or_report (rename_context old new);
  match failed with
  | Some code => mret code
  | None =>
      state ← load_state paths;
      let last := state !! "last_context" in
      (if decide (last = Some old) then
         let new_state := <["last_context" := new]> state in
         save_state paths new_state
       else mret tt);;
      mret 0
  end.

Definition delete_context_command (name : string) (paths : KctxPaths) : M Z :=
  state ← load_state paths;
  let last := state !! "last_context" in
  failed ← or_report (delete_context name);
  match failed with
  | Some code => mret code
  | None =>
      (if decide (last = Some name) then
         let new_state := delete "last_context" state in
         save_state paths new_state
       else mret tt);;
      mret 0
  end.

(** ** The rest of the script: listing and [main] *)

Definition get_contexts : M (list string) :=
  completed ← run_kubectl ["config"; "get-contexts"; "-o"; "name"];
  if negb (returncode completed =? 0) then
    let error_message := Py.or_else (Py.strip (stderr completed)) "kubectl failed" in
    raise (RuntimeError ("Failed to list contexts: " +:+ error_message))
  else
    let lines := map Py.strip (Py.splitlines (stdout completed)) in
    let contexts := List.filter (λ line, negb (Py.is_empty line)) lines in
    mret contexts.

(** [for x in items: body(x)] *)
Fixpoint for_each {A : Type} (items : list A) (body : A → M unit) : M unit :=
  match items with
  | [] => mret tt
  | x :: rest => body x;; for_each rest body
  end.

Definition list_contexts_command (paths : KctxPaths) : M Z :=
  listed ← try_except
             (contexts ← get_contexts; mret (inl contexts))
             is_RuntimeError
             (λ error, print_err (exn_str error);; mret (inr 1));
  match listed with
  | inr code => mret code
  | inl contexts =>
      current ← get_current_context;
      last ← get_last_context paths;
      labels ← load_labels paths;
      use_color ← (λ w, (Ok (stdout_isatty w), w));
      for_each contexts (λ name,
        let is_current := bool_decide (current = Some name) in
        let is_last :=
          match last with
          | Some last => bool_decide (name = last)
          | None => false
          end in
        let env := labels !! name in
        let marker_parts :=
          (if is_current then ["●"] else []) ++ (if is_last then ["◌"] else []) in
        let marker := Py.join " " marker_parts in
        let env_label :=
          match env with
          | Some env => format_env_label env use_color
          | None => EmptyString
          end in
        let pieces :=
          (if negb (Py.is_empty marker) then [Py.ljust 3 marker] else [Py.spaces 3])
          ++ (if negb (Py.is_empty env_label) then [Py.ljust 8 env_label] else [])
          ++ [name] in
        print_out (Py.join " " pieces));;
      mret 0
  end.

(** What [parse_args] hands to [main]: the three exclusive options and the
    positional argument. *)
Record Namespace : Type := {
  arg_current : bool;
  arg_rename : option (string * string);
  arg_delete : option string;
  arg_target : option string;
}.

(** [main], from the parsed arguments on; [home_dir] is [Path.home()]. *)
Definition main (args : Namespace) (home_dir : string) : M Z :=
  let paths := determine_paths home_dir in
  if arg_current args then current_context_command
  else
    match arg_rename args with
    | Some (old_name, new_name) => rename_context_command old_name new_name paths
    | None =>
        match arg_delete args with
        | Some delete_name => delete_context_command delete_name paths
        | None =>
            match arg_target args with
            | Some target => switch_context_command paths target
            | None => list_contexts_command paths
            end
        end
    end.

(** ** Notions used in the statements *)

Definition argv_current : list string := ["kubectl"; "config"; "current-context"].
Definition argv_use (name : string) : list string :=
  ["kubectl"; "config"; "use-context"; name].
Definition argv_rename (old new : string) : list string :=
  ["kubectl"; "config"; "rename-context"; old; new].
Definition argv_delete (name : string) : list string :=
  ["kubectl"; "config"; "delete-context"; name].

(** The outcome of running [argv] in world [w]. *)
Definition outcome (argv : list string) (w : World) : CompletedProcess :=
  (subprocess_run (kube w) argv).1.

(** The world after [argv] ran in world [w]. *)
Definition called (argv : list string) (w : World) : World :=
  record_call argv (outcome argv w) (subprocess_run (kube w) argv).2 w.

(** What [get_current_context] makes of a finished
    [kubectl config current-context]. *)
Definition current_of (completed : CompletedProcess) : option string :=
  if negb (returncode completed =? 0) then None
  else
    let context_name := Py.strip (stdout completed) in
    if Py.is_empty context_name then None else Some context_name.

(** The current context, as [get_current_context] answers in world [w]. *)
Definition known_current (w : World) : option string :=
  match get_current_context w with
  | (Ok current, _) => current
  | (Raise _, _) => None
  end.

(** The world in which a switch command issues its [use-context]: the one
    left by its first [get_current_context]. *)
Definition after_query (w : World) : World := called argv_current w.

(** The persisted state, as [load_state] answers in world [w]. *)
Definition persisted (paths : KctxPaths) (w : World) : gmap string string :=
  match load_state paths w with
  | (Ok state, _) => state
  | (Raise _, _) => ∅
  end.

(** The label table, as [load_labels] answers in world [w]. *)
Definition labels_of (paths : KctxPaths) (w : World) : gmap string string :=
  match load_labels paths w with
  | (Ok labels, _) => labels
  | (Raise _, _) => ∅
  end.

(** What [load_state] makes of the text of a state file. *)
Definition decode_state (raw_text : string) : gmap string string :=
  match json_loads raw_text with
  | Some (JObject items) => state_strings_of items
  | _ => ∅
  end.

(** The text [save_state] writes for [state] loads as [state] again. *)
Definition reads_back (state : gmap string string) : Prop :=
  decode_state (json_dumps state 2 true) = state.

(** The label is the [prod] tier, whatever its case. *)
Definition is_prod (env : option string) : bool :=
  match env with
  | Some env => String.eqb (Py.lower env) "prod"
  | None => false
  end.

(** The line a switch prints on [stdout] for the context it landed on. *)
Definition result_line (env : option string) (use_color : bool) (name : string) : string :=
  match env with
  | Some env => format_env_label env use_color +:+ " " +:+ name
  | None => name
  end.

(** The line [warn_if_prod] prints on [stderr]. *)
Definition warning_line (env : string) (use_color : bool) (name : string) : string :=
  "WARNING: context " +:+ Py.repr name +:+ " is labeled " +:+ format_env_label env use_color.

(** The text a failed [kubectl] call leaves in the message. *)
Definition error_text (completed : CompletedProcess) : string :=
  Py.or_else (Py.strip (stderr completed)) "kubectl failed".

(** The context a switch command asks [kubectl] for: its argument, or the
    persisted [last_context] when the argument is ["-"]. *)
Definition switch_target (paths : KctxPaths) (target : string) (w : World) : option string :=
  if String.eqb target "-" then persisted paths w !! "last_context" else Some target.

(** The messages of the three adapter failures. *)
Definition switch_failure (name : string) (completed : CompletedProcess) : string :=
  "Failed to switch context to " +:+ Py.repr name +:+ ": " +:+ error_text completed.
Definition rename_failure (old new : string) (completed : CompletedProcess) : string :=
  "Failed to rename context " +:+ Py.repr old +:+ " → " +:+ Py.repr new
  +:+ ": " +:+ error_text completed.
Definition delete_failure (name : string) (completed : CompletedProcess) : string :=
  "Failed to delete context " +:+ Py.repr name +:+ ": " +:+ error_text completed.

(** The commands of [main] that delegate a mutation to [kubectl]. *)
Inductive Command : Type :=
  | Switch (target : string)
  | Rename (old new : string)
  | Delete (name : string).

(** The dispatch of [main] on them. *)
Definition run_command (paths : KctxPaths) (cmd : Command) : M Z :=
  match cmd with
  | Switch target => switch_context_command paths target
  | Rename old new => rename_context_command old new paths
  | Delete name => delete_context_command name paths
  end.

(** The call a command delegates, with the world in which it is issued and
    the message the command prints should the call fail; nothing for a
    toggle that has no [last_context]. *)
Definition delegated (paths : KctxPaths) (cmd : Command) (w : World)
    : option (list string * World * (CompletedProcess → string)) :=
  match cmd with
  | Switch target =>
      match switch_target paths target w with
      | Some name => Some (argv_use name, after_query w, switch_failure name)
      | None => None
      end
  | Rename old new => Some (argv_rename old new, w, rename_failure old new)
  | Delete name => Some (argv_delete name, w, delete_failure name)
  end.

(** The tool's side of the toggle protocol: asking for the current context
    changes nothing, and a [use-context name] that exits 0 makes the tool
    answer [name] when it is asked next. *)
Definition query_is_pure : Prop :=
  ∀ k : kube_state, (subprocess_run k argv_current).2 = k.

Definition switch_takes_effect (name : string) : Prop :=
  ∀ k : kube_state,
    returncode (subprocess_run k (argv_use name)).1 = 0 →
    current_of (subprocess_run (subprocess_run k (argv_use name)).2 argv_current).1
    = Some name.

(** What [warn_if_prod] adds to [stderr] for a context labelled [env]. *)
Definition warnings (env : option string) (use_color : bool) (name : string) : list string :=
  match env with
  | Some label => if is_prod env then [warning_line label use_color name] else []
  | None => []
  end.

(** The world [announce_new_current] leaves. *)
Definition announced (paths : KctxPaths) (w : World) : World :=
  match known_current w with
  | None => after_query w
  | Some name =>
      let env := labels_of paths w !! name in
      let shown := to_stdout (result_line env (stdout_isatty w) name) (after_query w) in
      match env with
      | Some label =>
          if is_prod env then to_stderr (warning_line label (stderr_isatty w) name) shown
          else shown
      | None => shown
      end
  end.

(** [w'] differs from [w] in the files at most. *)
Definition same_but_files (w w' : World) : Prop :=
  kube w' = kube w ∧ calls w' = calls w
  ∧ sys_stdout w' = sys_stdout w ∧ sys_stderr w' = sys_stderr w
  ∧ stdout_isatty w' = stdout_isatty w ∧ stderr_isatty w' = stderr_isatty w.

(** The paths of [chain], a path followed by its ancestors, down to the
    first one that is there. *)
Fixpoint missing_above (fs : gmap string Node) (chain : list string) : list string :=
  match chain with
  | path :: above =>
      match fs !! path with
      | None => path :: missing_above fs above
      | Some _ => []
      end
  | [] => []
  end.

(** The directories missing on the way to [path]: [path] and its ancestors
    below the nearest one that is there, the topmost first. *)
Definition missing_dirs (fs : gmap string Node) (path : string) : list string :=
  reverse (missing_above fs (path :: path_parents path)).

(** The mutations [save_state] makes when it returns. *)
Definition save_ops (paths : KctxPaths) (state : gmap string string) (w : World) : list FsOp :=
(OpMkdir <$> missing_dirs (files w) (base_dir paths))
  ++ [OpTruncate (state_file paths); OpWrite (state_file paths) (json_dumps state 2 true)].

(** The file mutations made between [w] and [w']. *)
Definition new_ops (w w' : World) : list FsOp :=
  drop (length (fs_ops w)) (fs_ops w').


(** Every text written between [w] and [w'] goes to the state file and
    serializes a mapping that agrees with the state loaded in [w] on every
    key but [last_context]. *)
Definition writes_keep_other_keys (paths : KctxPaths) (w w' : World) : Prop :=
  ∀ path text, OpWrite path text ∈ new_ops w w' →
    path = state_file paths
    ∧ ∃ saved : gmap string string,
        text = json_dumps saved 2 true
        ∧ ∀ key, key ≠ "last_context" → saved !! key = persisted paths w !! key.

(** ** Notions used in the statements about listing and [main] *)

Definition argv_list : list string := ["kubectl"; "config"; "get-contexts"; "-o"; "name"].

(** What [get_contexts] makes of the output of a finished
    [kubectl config get-contexts -o name]. *)
Definition contexts_of (out : string) : list string :=
  List.filter (λ line, negb (Py.is_empty line)) (map Py.strip (Py.splitlines out)).

Definition list_failure (completed : CompletedProcess) : string :=
  "Failed to list contexts: " +:+ error_text completed.

(** The contexts [get_contexts] answers in world [w], if the call succeeds. *)
Definition listed (w : World) : option (list string) :=
  if returncode (outcome argv_list w) =? 0
  then Some (contexts_of (stdout (outcome argv_list w)))
  else None.

(** Each name on a line of its own, as the tool prints them. *)
Definition unlines (names : list string) : string :=
  foldr (λ name rest, name +:+ String (ascii_of_nat 10) rest) EmptyString names.

(** A name as the adapter hands it out: not empty, no white space around. *)
Definition clean (name : string) : Prop :=
  Py.strip name = name ∧ name ≠ EmptyString.

(** No line break inside. *)
Fixpoint one_line (s : string) : bool :=
  match s with
  | String c r => negb (Py.is_linebreak c) && one_line r
  | EmptyString => true
  end.

(** Only ASCII characters, where the model of [strip] and [splitlines] is exact. *)
Fixpoint is_ascii (s : string) : bool :=
  match s with
  | String c r => (nat_of_ascii c <? 128)%nat && is_ascii r
  | EmptyString => true
  end.

(** The first column of a line of the listing. *)
Definition marker_column (is_current is_last : bool) : string :=
  let marker :=
    Py.join " " ((if is_current then ["●"] else []) ++ (if is_last then ["◌"] else [])) in
  if negb (Py.is_empty marker) then Py.ljust 3 marker else Py.spaces 3.

(** The line [list_contexts_command] prints for [name]. *)
Definition context_line (current last : option string) (labels : gmap string string)
    (use_color : bool) (name : string) : string :=
  let is_current := bool_decide (current = Some name) in
  let is_last := bool_decide (last = Some name) in
  match labels !! name with
  | Some env =>
      marker_column is_current is_last +:+ " "
      +:+ Py.ljust 8 (format_env_label env use_color) +:+ " " +:+ name
  | None => marker_column is_current is_last +:+ " " +:+ name
  end.

(** The label an entry of the [contexts] table carries: the [env] of a
    table, when it is a string. *)
Definition entry_env (cfg : toml) : option string :=
  match cfg with
  | TTable cfg_items =>
      match items_get "env" cfg_items with
      | Some (TString env) => Some env
      | _ => None
      end
  | _ => None
  end.

(** The base directory and the directories above it. *)
Definition base_dirs (paths : KctxPaths) : list string :=
  base_dir paths :: path_parents (base_dir paths).

(** The mutations the script may make: create the base directory or one
    above it, truncate the state file, write the state file. *)
Definition state_op (paths : KctxPaths) (op : FsOp) : Prop :=
  (∃ dir, op = OpMkdir dir ∧ dir ∈ base_dirs paths)
  ∨ op = OpTruncate (state_file paths)
  ∨ ∃ text, op = OpWrite (state_file paths) text.

(** Between [w] and [w'] the files changed by [state_op]s only, all logged. *)
Definition touches_state_only (paths : KctxPaths) (w w' : World) : Prop :=
  ∃ ops,
    fs_ops w' = fs_ops w ++ ops
    ∧ files w' = replay ops (files w)
    ∧ Forall (state_op paths) ops.

(** The subprocesses run between [w] and [w']. *)
Definition new_calls (w w' : World) : list (list string * CompletedProcess) :=
  drop (length (calls w)) (calls w').

End Kctx.

(** ** A sample platform

    A concrete instance of [Platform] on which the script can be run inside
    Rocq: a [kubectl] that keeps a list of contexts and the current one, a
    writer and a reader for the JSON that [save_state] produces, and the
    reading of one label file.  The theorems below hold for every platform;
    this one serves to evaluate them on concrete runs. *)

Module Sample.

Definition NL : string := String (ascii_of_nat 10) EmptyString.
Definition quoted (s : string) : string :=
  String Py.dquote (s +:+ String Py.dquote EmptyString).

Record KubeConfig : Type := {
  contexts : list string;
  current_context : option string;
}.

Definition completed (code : Z) (out err : string) : CompletedProcess :=
  {| returncode := code; stdout := out; stderr := err |}.

Definition kubectl (k : KubeConfig) (argv : list string) : CompletedProcess * KubeConfig :=
  match argv with
  | ["kubectl"; "config"; "current-context"] =>
      match current_context k with
      | Some c => (completed 0 (c +:+ NL) EmptyString, k)
      | None => (completed 1 EmptyString ("error: current-context is not set" +:+ NL), k)
      end
  | ["kubectl"; "config"; "use-context"; name] =>
      if bool_decide (name ∈ contexts k) then
        (completed 0 ("Switched to context " +:+ quoted name +:+ "." +:+ NL) EmptyString,
         {| contexts := contexts k; current_context := Some name |})
      else
        (completed 1 EmptyString
           ("error: no context exists with the name: " +:+ quoted name +:+ NL), k)
  | ["kubectl"; "config"; "rename-context"; old; new] =>
      if bool_decide (old ∈ contexts k ∧ new ∉ contexts k) then
        (completed 0
           ("Context " +:+ quoted old +:+ " renamed to " +:+ quoted new +:+ "." +:+ NL)
           EmptyString,
         {| contexts := map (λ c, if decide (c = old) then new else c) (contexts k);
            current_context :=
              if decide (current_context k = Some old) then Some new
              else current_context k |})
      else
        (completed 1 EmptyString
           ("error: cannot rename the context " +:+ quoted old +:+ NL), k)
  | ["kubectl"; "config"; "delete-context"; name] =>
      if bool_decide (name ∈ contexts k) then
        (completed 0 ("deleted context " +:+ name +:+ NL) EmptyString,
         {| contexts := filter (λ c, c ≠ name) (contexts k);
            current_context := current_context k |})
      else
        (completed 1 EmptyString
           ("error: cannot delete context " +:+ name +:+ ", not in the config" +:+ NL), k)
  | _ => (completed 1 EmptyString ("error: unknown command" +:+ NL), k)
  end.

(** *** Writing JSON *)

Definition escape_char (c : ascii) : string :=
  let n := nat_of_ascii c in
  if (Ascii.eqb c Py.dquote || Ascii.eqb c Py.backslash)%bool
  then String Py.backslash (String c EmptyString)
  else if (n =? 10)%nat then String Py.backslash "n"
  else if (n =? 13)%nat then String Py.backslash "r"
  else if (n =? 9)%nat then String Py.backslash "t"
  else if (n =? 8)%nat then String Py.backslash "b"
  else if (n =? 12)%nat then String Py.backslash "f"
  else if (n <? 32)%nat
  then String Py.backslash
         ("u00" +:+ String (Py.hex_digit (n / 16)) (String (Py.hex_digit (n mod 16)) EmptyString))
  else String c EmptyString.

Fixpoint escape (s : string) : string :=
  match s with
  | String c r => escape_char c +:+ escape r
  | EmptyString => EmptyString
  end.

Definition json_string (s : string) : string := quoted (escape s).

Fixpoint spaces (n : nat) : string :=
  match n with
  | O => EmptyString
  | S n' => String " " (spaces n')
  end.

Definition key_le (a b : string * string) : Prop := String.le a.1 b.1.

#[local] Instance key_le_dec : RelDecision key_le.
Proof. intros a b. unfold key_le. apply _. Defined.

Definition dumps (state : gmap string string) (indent : nat) (sort_keys : bool) : string :=
  let items := map_to_list state in
  let items := if sort_keys then merge_sort key_le items else items in
  match items with
  | [] => "{}"
  | _ =>
      "{" +:+ NL
      +:+ Py.join ("," +:+ NL)
            (map (λ kv, spaces indent +:+ json_string kv.1 +:+ ": " +:+ json_string kv.2) items)
      +:+ NL +:+ "}"
  end.

(** *** Reading JSON

    Objects, arrays, strings, integers, [true], [false] and [null]; numbers
    with a fraction or an exponent and escapes beyond ASCII are outside this
    reader. *)

Definition is_ws (c : ascii) : bool :=
  let n := nat_of_ascii c in
  ((n =? 32) || (n =? 9) || (n =? 10) || (n =? 13))%nat.

Fixpoint skip_ws (s : string) : string :=
  match s with
  | String c r => if is_ws c then skip_ws r else s
  | EmptyString => EmptyString
  end.

Definition hex_value (c : ascii) : option nat :=
  let n := nat_of_ascii c in
  if ((48 <=? n) && (n <=? 57))%nat then Some (n - 48)%nat
  else if ((97 <=? n) && (n <=? 102))%nat then Some (n - 87)%nat
  else if ((65 <=? n) && (n <=? 70))%nat then Some (n - 55)%nat
  else None.

Definition simple_escape (e : ascii) : option ascii :=
  if Ascii.eqb e "n" then Some (ascii_of_nat 10)
  else if Ascii.eqb e "t" then Some (ascii_of_nat 9)
  else if Ascii.eqb e "r" then Some (ascii_of_nat 13)
  else if Ascii.eqb e "b" then Some (ascii_of_nat 8)
  else if Ascii.eqb e "f" then Some (ascii_of_nat 12)
  else if (Ascii.eqb e Py.dquote || Ascii.eqb e Py.backslash || Ascii.eqb e "/")%bool
  then Some e
  else None.

(** The characters of a string up to its closing quote, and what follows. *)
Fixpoint read_string (s : string) : option (string * string) :=
  match s with
  | EmptyString => None
  | String c r =>
      if Ascii.eqb c Py.dquote then Some (EmptyString, r)
      else if Ascii.eqb c Py.backslash then
        match r with
        | String "u" (String a (String b (String x (String y r')))) =>
            match hex_value a, hex_value b, hex_value x, hex_value y with
            | Some 0%nat, Some 0%nat, Some hi, Some lo =>
                if (hi <? 8)%nat then
                  match read_string r' with
                  | Some (body, rest) => Some (String (ascii_of_nat (16 * hi + lo)) body, rest)
                  | None => None
                  end
                else None
            | _, _, _, _ => None
            end
        | String e r' =>
            match simple_escape e, read_string r' with
            | Some d, Some (body, rest) => Some (String d body, rest)
            | _, _ => None
            end
        | EmptyString => None
        end
      else if (nat_of_ascii c <? 32)%nat then None
      else
        match read_string r with
        | Some (body, rest) => Some (String c body, rest)
        | None => None
        end
  end.

Definition digit_value (c : ascii) : option Z :=
  let n := nat_of_ascii c in
  if ((48 <=? n) && (n <=? 57))%nat then Some (Z.of_nat n - 48) else None.

Fixpoint read_digits (acc : Z) (s : string) : Z * string :=
  match s with
  | String c r =>
      match digit_value c with
      | Some d => read_digits (10 * acc + d) r
      | None => (acc, s)
      end
  | EmptyString => (acc, s)
  end.

Definition starts_fraction (s : string) : bool :=
  match s with
  | String c _ => (Ascii.eqb c "." || Ascii.eqb c "e" || Ascii.eqb c "E")%bool
  | EmptyString => false
  end.

Definition read_int (s : string) : option (Z * string) :=
  let '(sign, body) :=
    match s with
    | String "-" r => (-1, r)
    | _ => (1, s)
    end in
  match body with
  | String c _ =>
      match digit_value c with
      | Some _ =>
          let '(n, rest) := read_digits 0 body in
          if starts_fraction rest then None else Some (sign * n, rest)
      | None => None
      end
  | EmptyString => None
  end.

(** [d[key] = v] on the items of a [dict]: in place when the key is there. *)
Fixpoint items_set (key : string) (v : json) (items : list (string * json)) : list (string * json) :=
  match items with
  | [] => [(key, v)]
  | (k, old) :: rest =>
      if decide (k = key) then (k, v) :: rest else (k, old) :: items_set key v rest
  end.

Fixpoint read_value (fuel : nat) (s : string) : option (json * string) :=
  match fuel with
  | O => None
  | S fuel' =>
      match skip_ws s with
      | String "n" (String "u" (String "l" (String "l" r))) => Some (JNull, r)
      | String "t" (String "r" (String "u" (String "e" r))) => Some (JBool true, r)
      | String "f" (String "a" (String "l" (String "s" (String "e" r)))) => Some (JBool false, r)
      | String "[" r =>
          match skip_ws r with
          | String "]" r' => Some (JArray [], r')
          | _ => read_elems fuel' [] r
          end
      | String "{" r =>
          match skip_ws r with
          | String "}" r' => Some (JObject [], r')
          | _ => read_members fuel' [] r
          end
      | String c r =>
          if Ascii.eqb c Py.dquote then
            match read_string r with
            | Some (body, rest) => Some (JString body, rest)
            | None => None
            end
          else
            match read_int (String c r) with
            | Some (n, rest) => Some (JInt n, rest)
            | None => None
            end
      | EmptyString => None
      end
  end
with read_elems (fuel : nat) (acc : list json) (s : string) : option (json * string) :=
  match fuel with
  | O => None
  | S fuel' =>
      match read_value fuel' s with
      | Some (v, rest) =>
          match skip_ws rest with
          | String "," r => read_elems fuel' (acc ++ [v]) r
          | String "]" r => Some (JArray (acc ++ [v]), r)
          | _ => None
          end
      | None => None
      end
  end
with read_members (fuel : nat) (acc : list (string * json)) (s : string) : option (json * string) :=
  match fuel with
  | O => None
  | S fuel' =>
      match skip_ws s with
      | String q r =>
          if Ascii.eqb q Py.dquote then
            match read_string r with
            | Some (key, rest) =>
                match skip_ws rest with
                | String ":" r' =>
                    match read_value fuel' r' with
                    | Some (v, rest') =>
                        match skip_ws rest' with
                        | String "," r'' => read_members fuel' (items_set key v acc) r''
                        | String "}" r'' => Some (JObject (items_set key v acc), r'')
                        | _ => None
                        end
                    | None => None
                    end
                | _ => None
                end
            | None => None
            end
          else None
      | EmptyString => None
      end
  end.

Definition loads (text : string) : option json :=
  match read_value (2 * String.length text + 2) text with
  | Some (v, rest) => if Py.is_empty (skip_ws rest) then Some v else None
  | None => None
  end.

(** *** Reading one label file *)

Definition labels_toml : string :=
  "[contexts]" +:+ NL +:+ NL
  +:+ "[contexts." +:+ quoted "prod-cluster" +:+ "]" +:+ NL
  +:+ "env = " +:+ quoted "prod" +:+ NL +:+ NL
  +:+ "[contexts.payments]" +:+ NL
  +:+ "env = " +:+ quoted "PROD" +:+ NL +:+ NL
  +:+ "[contexts.b]" +:+ NL
  +:+ "env = " +:+ quoted "dev" +:+ NL +:+ NL
  +:+ "[contexts.broken]" +:+ NL
  +:+ "env = 3" +:+ NL.

(** [tomllib.loads] on [labels_toml] and on the empty text; any other text
    is taken as one that does not parse. *)
Definition toml_loads (text : string) : option (list (string * toml)) :=
  if decide (text = labels_toml) then
    Some [("contexts",
           TTable [("prod-cluster", TTable [("env", TString "prod")]);
                   ("payments", TTable [("env", TString "PROD")]);
                   ("b", TTable [("env", TString "dev")]);
                   ("broken", TTable [("env", TOther)])])]
  else if decide (text = EmptyString) then Some []
  else None.

(** *** The platform and some worlds *)

#[global] Instance platform : Platform := {|
  kube_state := KubeConfig;
  subprocess_run := kubectl;
  json_loads := loads;
  json_dumps := dumps;
  tomllib := Some toml_loads;
|}.

Definition paths : KctxPaths := determine_paths "/home/dev".

Definition cluster (current : option string) : KubeConfig :=
  {| contexts := ["a"; "b"; "prod-cluster"; "payments"]; current_context := current |}.

Definition world (k : KubeConfig) (fs : gmap string Node) : World :=
  {| kube := k; calls := []; files := fs; fs_ops := [];
     sys_stdout := []; sys_stderr := [];
     stdout_isatty := false; stderr_isatty := false |}.

(** The configuration directory with the label file and no state file. *)
Definition labelled : gmap string Node :=
  <[config_file paths := Text labels_toml]> (<[base_dir paths := Dir]> ∅).

(** The same with a state file that holds [state]. *)
Definition with_state (state : gmap string string) (fs : gmap string Node) : gmap string Node :=
  <[state_file paths := Text (dumps state 2 true)]> fs.

(** On context [a], labels configured, nothing persisted yet. *)
Definition fresh : World := world (cluster (Some "a")) labelled.

(** On context [a], with [b] persisted as the last context next to a key
    the script does not know. *)
Definition settled : World :=
  world (cluster (Some "a"))
    (with_state (<["last_context" := "b"]> (<["theme" := "dark"]> ∅)) labelled).

(** The home directory, with nothing in it. *)
Definition home : gmap string Node :=
  <["/home/dev" := Dir]> (<["/home" := Dir]> (<["/" := Dir]> ∅)).

(** On context [a], with no [.config] in the home directory. *)
Definition bare : World := world (cluster (Some "a")) home.

(** No current context, nothing persisted. *)
Definition unset : World := world (cluster None) labelled.

End Sample.

(** ** A sample tool that also lists its contexts *)

Module Listing.

Definition kubectl (k : Sample.KubeConfig) (argv : list string)
    : CompletedProcess * Sample.KubeConfig :=
  match argv with
  | ["kubectl"; "config"; "get-contexts"; "-o"; "name"] =>
      (Sample.completed 0 (unlines (Sample.contexts k)) EmptyString, k)
  | _ => Sample.kubectl k argv
  end.

Definition platform : Platform := {|
  kube_state := Sample.KubeConfig;
  subprocess_run := kubectl;
  json_loads := Sample.loads;
  json_dumps := Sample.dumps;
  tomllib := Some Sample.toml_loads;
|}.

Definition world (k : Sample.KubeConfig) (fs : gmap string Node) : World (H := platform) :=
  @Build_World platform k [] fs [] [] [] false false.

(** On context [a], with [b] persisted as the last context and the sample
    label file. *)
Definition settled : World (H := platform) :=
  world (Sample.cluster (Some "a"))
    (Sample.with_state (<["last_context" := "b"]> ∅) Sample.labelled).

End Listing.

(** * Facts about the script *)

Section Facts.
Context `{Platform}.

(** ** Strings *)

Lemma append_cons (ch : ascii) (a b : string) : String ch a +:+ b = String ch (a +:+ b).
Proof. reflexivity. Qed.

Lemma append_assoc (a b c : string) : (a +:+ b) +:+ c = a +:+ b +:+ c.
Proof. induction a as [|ch a IH]; [done|]. by rewrite !append_cons, IH. Qed.

Lemma append_nil_r (a : string) : a +:+ EmptyString = a.
Proof. induction a as [|c a IH]; [reflexivity|]. by rewrite append_cons, IH. Qed.

Lemma append_ne_self (a b : string) : b ≠ EmptyString → a +:+ b ≠ a.
Proof.
  intros Hb Heq. rewrite <- (append_nil_r a) in Heq at 2.
  by apply (inj (String.append a)) in Heq.
Qed.

Lemma or_else_nonempty (a b : string) : a ≠ EmptyString → Py.or_else a b = a.
Proof. by destruct a. Qed.

(** [lower] sends exactly the two spellings of a letter to it. *)
Ltac two_spellings c :=
  split;
  [ destruct c as [[] [] [] [] [] [] [] []]; vm_compute; intros [=]; auto
  | intros [-> | ->]; reflexivity ].

Lemma lower_char_p (c : ascii) : Py.lower_char c = "p"%char ↔ (c = "p" ∨ c = "P")%char.
Proof. two_spellings c. Qed.

Lemma lower_char_r (c : ascii) : Py.lower_char c = "r"%char ↔ (c = "r" ∨ c = "R")%char.
Proof. two_spellings c. Qed.

Lemma lower_char_o (c : ascii) : Py.lower_char c = "o"%char ↔ (c = "o" ∨ c = "O")%char.
Proof. two_spellings c. Qed.

Lemma lower_char_d (c : ascii) : Py.lower_char c = "d"%char ↔ (c = "d" ∨ c = "D")%char.
Proof. two_spellings c. Qed.

(** X21: the test of [warn_if_prod], [env.lower() == "prod"], accepts a
    label exactly when it spells [prod] in some mix of upper and lower
    case: four letters, each in either case, and nothing around them. *)
Lemma is_prod_spelling (env : string) :
  is_prod (Some env) = true ↔
  ∃ c1 c2 c3 c4,
    env = String c1 (String c2 (String c3 (String c4 EmptyString)))
    ∧ (c1 = "p" ∨ c1 = "P")%char ∧ (c2 = "r" ∨ c2 = "R")%char
    ∧ (c3 = "o" ∨ c3 = "O")%char ∧ (c4 = "d" ∨ c4 = "D")%char.
Proof.
  unfold is_prod. rewrite String.eqb_eq. split.
  - destruct env as [|c1 [|c2 [|c3 [|c4 [|c5 rest]]]]]; try discriminate.
    cbn [Py.lower]. intros [= H1 H2 H3 H4]. exists c1, c2, c3, c4.
    by rewrite <- lower_char_p, <- lower_char_r, <- lower_char_o, <- lower_char_d.
  - intros (c1 & c2 & c3 & c4 & -> & H1 & H2 & H3 & H4). cbn [Py.lower].
    apply lower_char_p in H1. apply lower_char_r in H2.
    apply lower_char_o in H3. apply lower_char_d in H4.
    by rewrite H1, H2, H3, H4.
Qed.

(** ** Running the monad *)

Lemma bind_ok {A B : Type} (m : M A) (f : A → M B) (w w' : World) (a : A) :
  m w = (Ok a, w') → (m ≫= f) w = f a w'.
Proof. intros Hm. unfold mbind, M_bind. by rewrite Hm. Qed.

Lemma bind_raise {A B : Type} (m : M A) (f : A → M B) (w w' : World) (e : Exn) :
  m w = (Raise e, w') → (m ≫= f) w = (Raise e, w').
Proof. intros Hm. unfold mbind, M_bind. by rewrite Hm. Qed.

Lemma run_eq {A : Type} (m : M A) (w : World) (r : Res A) :
  (m w).1 = r → m w = (r, (m w).2).
Proof. intros <-. by destruct (m w). Qed.

(** ** The adapter *)

Lemma subprocess_called (argv : list string) (w : World) :
  subprocess argv w = (Ok (outcome argv w), called argv w).
Proof.
  unfold subprocess, called, outcome.
  by destruct (subprocess_run (kube w) argv).
Qed.

Lemma get_current_context_run (w : World) :
  get_current_context w = (Ok (known_current w), after_query w).
Proof.
  assert (get_current_context w
          = (Ok (current_of (outcome argv_current w)), called argv_current w)) as Hrun.
  { unfold get_current_context, run_kubectl, argv_current.
    rewrite (bind_ok _ _ _ _ _ (subprocess_called _ w)). unfold current_of.
    destruct (negb _); [reflexivity|].
    destruct (Py.is_empty _); reflexivity. }
  unfold known_current, after_query. by rewrite Hrun.
Qed.

Lemma known_current_outcome (w : World) :
  known_current w = current_of (outcome argv_current w).
Proof.
  unfold known_current, get_current_context, run_kubectl, argv_current.
  rewrite (bind_ok _ _ _ _ _ (subprocess_called _ w)). unfold current_of.
  destruct (negb _); [reflexivity|].
  destruct (Py.is_empty _); reflexivity.
Qed.

Lemma use_context_run (name : string) (w : World) :
  use_context name w =
    (if returncode (outcome (argv_use name) w) =? 0 then Ok tt
     else Raise (RuntimeError
                   ("Failed to switch context to " +:+ Py.repr name +:+ ": "
                    +:+ error_text (outcome (argv_use name) w))),
     called (argv_use name) w).
Proof.
  unfold use_context, run_kubectl, argv_use.
  rewrite (bind_ok _ _ _ _ _ (subprocess_called _ w)).
  destruct (_ =? 0); reflexivity.
Qed.

Lemma rename_context_run (old new : string) (w : World) :
  rename_context old new w =
    (if returncode (outcome (argv_rename old new) w) =? 0 then Ok tt
     else Raise (RuntimeError
                   ("Failed to rename context " +:+ Py.repr old +:+ " → " +:+ Py.repr new
                    +:+ ": " +:+ error_text (outcome (argv_rename old new) w))),
     called (argv_rename old new) w).
Proof.
  unfold rename_context, run_kubectl, argv_rename.
  rewrite (bind_ok _ _ _ _ _ (subprocess_called _ w)).
  destruct (_ =? 0); reflexivity.
Qed.

Lemma delete_context_run (name : string) (w : World) :
  delete_context name w =
    (if returncode (outcome (argv_delete name) w) =? 0 then Ok tt
     else Raise (RuntimeError
                   ("Failed to delete context " +:+ Py.repr name +:+ ": "
                    +:+ error_text (outcome (argv_delete name) w))),
     called (argv_delete name) w).
Proof.
  unfold delete_context, run_kubectl, argv_delete.
  rewrite (bind_ok _ _ _ _ _ (subprocess_called _ w)).
  destruct (_ =? 0); reflexivity.
Qed.

(** A call that raises [RuntimeError] is reported on [stderr] and turned
    into the early return of status 1; one that returns falls through. *)
Lemma or_report_run (call : M unit) (w w' : World) (r : Res unit) :
  call w = (r, w') →
  or_report call w =
    match r with
    | Ok _ => (Ok None, w')
    | Raise (RuntimeError msg) => (Ok (Some 1), to_stderr msg w')
    | Raise e => (Raise e, w')
    end.
Proof.
  intros Hcall. unfold or_report, try_except, mbind, M_bind, mret, M_ret, print_err.
  rewrite Hcall. destruct r as [[]|[]]; reflexivity.
Qed.

Lemma or_report_use_context (name : string) (w : World) :
  or_report (use_context name) w =
    if returncode (outcome (argv_use name) w) =? 0
    then (Ok None, called (argv_use name) w)
    else (Ok (Some 1),
          to_stderr (switch_failure name (outcome (argv_use name) w))
            (called (argv_use name) w)).
Proof.
  rewrite (or_report_run _ _ _ _ (use_context_run name w)).
  destruct (_ =? 0); reflexivity.
Qed.

Lemma or_report_rename_context (old new : string) (w : World) :
  or_report (rename_context old new) w =
    if returncode (outcome (argv_rename old new) w) =? 0
    then (Ok None, called (argv_rename old new) w)
    else (Ok (Some 1),
          to_stderr (rename_failure old new (outcome (argv_rename old new) w))
            (called (argv_rename old new) w)).
Proof.
  rewrite (or_report_run _ _ _ _ (rename_context_run old new w)).
  destruct (_ =? 0); reflexivity.
Qed.

Lemma or_report_delete_context (name : string) (w : World) :
  or_report (delete_context name) w =
    if returncode (outcome (argv_delete name) w) =? 0
    then (Ok None, called (argv_delete name) w)
    else (Ok (Some 1),
          to_stderr (delete_failure name (outcome (argv_delete name) w))
            (called (argv_delete name) w)).
Proof.
  rewrite (or_report_run _ _ _ _ (delete_context_run name w)).
  destruct (_ =? 0); reflexivity.
Qed.

(** ** The state store *)

Lemma load_state_files (paths : KctxPaths) (w : World) :
  load_state paths w =
    (Ok match files w !! state_file paths with
        | Some (Text raw_text) => decode_state raw_text
        | _ => ∅
        end, w).
Proof.
  unfold load_state, path_exists, read_text, try_except, decode_state,
    mbind, M_bind, mret, M_ret, raise.
  destruct (files w !! state_file paths) as [[| raw_text |] |] eqn:Hfile;
    cbn; rewrite ?Hfile; cbn; try reflexivity.
  destruct (json_loads raw_text) as [[]|]; reflexivity.
Qed.

Lemma persisted_files (paths : KctxPaths) (w : World) :
  persisted paths w =
    match files w !! state_file paths with
    | Some (Text raw_text) => decode_state raw_text
    | _ => ∅
    end.
Proof. unfold persisted. by rewrite load_state_files. Qed.

Lemma load_state_run (paths : KctxPaths) (w : World) :
  load_state paths w = (Ok (persisted paths w), w).
Proof. by rewrite persisted_files, load_state_files. Qed.

Lemma persisted_ext (paths : KctxPaths) (w1 w2 : World) :
  files w1 = files w2 → persisted paths w1 = persisted paths w2.
Proof. intros Hfs. by rewrite !persisted_files, Hfs. Qed.

Lemma persisted_text (paths : KctxPaths) (w : World) (raw_text : string) :
  files w !! state_file paths = Some (Text raw_text) →
  persisted paths w = decode_state raw_text.
Proof. intros Hfile. by rewrite persisted_files, Hfile. Qed.

Lemma get_last_context_run (paths : KctxPaths) (w : World) :
  get_last_context paths w = (Ok (persisted paths w !! "last_context"), w).
Proof.
  unfold get_last_context. rewrite (bind_ok _ _ _ _ _ (load_state_run paths w)).
  by destruct (persisted paths w !! "last_context").
Qed.

(** ** The label table *)

Lemma load_labels_total (paths : KctxPaths) (w : World) :
  ∃ labels, load_labels paths w = (Ok labels, w)
    ∧ ∀ w2, files w2 = files w → load_labels paths w2 = (Ok labels, w2).
Proof.
  unfold load_labels. destruct tomllib as [toml_loads|]; [|by eexists].
  unfold path_exists, read_text, try_except, mbind, M_bind, mret, M_ret, raise.
  destruct (files w !! config_file paths) as [[| raw |] |] eqn:Hfile;
    cbn; rewrite ?Hfile; cbn.
  - eexists; split; [reflexivity|]. intros w2 Hfs.
    by repeat (progress (cbn; rewrite ?Hfs, ?Hfile)).
  - destruct (toml_loads raw) as [data|] eqn:Hdata; cbn.
    + destruct (items_get "contexts" data) as [[]|] eqn:Hctx;
        (eexists; split; [reflexivity|]; intros w2 Hfs;
         by repeat (progress (cbn; rewrite ?Hfs, ?Hfile, ?Hdata, ?Hctx))).
    + eexists; split; [reflexivity|]. intros w2 Hfs.
      by repeat (progress (cbn; rewrite ?Hfs, ?Hfile, ?Hdata)).
  - eexists; split; [reflexivity|]. intros w2 Hfs.
    by repeat (progress (cbn; rewrite ?Hfs, ?Hfile)).
  - eexists; split; [reflexivity|]. intros w2 Hfs.
    by repeat (progress (cbn; rewrite ?Hfs, ?Hfile)).
Qed.

Lemma load_labels_run (paths : KctxPaths) (w : World) :
  load_labels paths w = (Ok (labels_of paths w), w).
Proof.
  destruct (load_labels_total paths w) as (labels & Hrun & _).
  unfold labels_of. by rewrite Hrun.
Qed.

Lemma labels_of_ext (paths : KctxPaths) (w1 w2 : World) :
  files w1 = files w2 → labels_of paths w1 = labels_of paths w2.
Proof.
  intros Hfs. destruct (load_labels_total paths w2) as (labels & Hrun & Hext).
  unfold labels_of. by rewrite Hrun, (Hext w1 Hfs).
Qed.

(** ** Paths and the directories above them *)


Lemma path_dirname_shorter (path dir : string) :
  path_dirname path = Some dir → (String.length dir < String.length path)%nat.
Proof.
  revert dir. induction path as [|c rest IH]; intros dir; [done|].
  cbn [path_dirname]. destruct (path_dirname rest) as [d|].
  - intros [= <-]. specialize (IH d eq_refl). cbn. lia.
  - destruct (Ascii.eqb c "/"); [|done]. intros [= <-]. cbn. lia.
Qed.


(** A parent that has a parent of its own is shorter than its child. *)
Lemma path_parent_shorter (path : string) :
  path_parent (path_parent path) ≠ path_parent path →
  (String.length (path_parent path) < String.length path)%nat.
Proof.
  unfold path_parent at 2 3 4.
  destruct (path_dirname path) as [[|c d]|] eqn:Hdir; intros Hne.
  - by destruct Hne.
  - by apply path_dirname_shorter in Hdir.
  - by destruct Hne.
Qed.

(** The walk up is not cut short: it ends on a path that is its own
    parent, the root or [.]. *)
Lemma parents_from_top (fuel : nat) (path : string) :
  path_parent path = path ∨ (String.length path < fuel)%nat →
  ∃ top, last (path :: parents_from fuel path) = Some top ∧ path_parent top = top.
Proof.
  revert path. induction fuel as [|fuel IH]; intros path Hfuel; cbn [parents_from].
  { destruct Hfuel as [Htop|Hlt]; [by exists path | lia]. }
  cbv zeta. destruct (String.eqb (path_parent path) path) eqn:Hup.
  { apply String.eqb_eq in Hup. by exists path. }
  apply String.eqb_neq in Hup. rewrite last_cons_cons. apply IH.
  destruct (decide (path_parent (path_parent path) = path_parent path)) as [|Hne];
    [by left | right].
  apply path_parent_shorter in Hne. destruct Hfuel as [Htop|Hlt]; [done | lia].
Qed.

Lemma path_parents_top (path : string) :
  ∃ top, last (path :: path_parents path) = Some top ∧ path_parent top = top.
Proof. apply parents_from_top. right. lia. Qed.



Lemma missing_above_chain (fs : gmap string Node) (chain : list string) (dir : string) :
  dir ∈ missing_above fs chain → dir ∈ chain.
Proof.
  induction chain as [|path above IH]; cbn [missing_above]; [done|].
  destruct (fs !! path); [by intros ?%elem_of_nil|].
  intros [->|Hin%IH]%elem_of_cons; [left | by right].
Qed.

(** ** Making directories *)

Lemma replay_snoc (ops : list FsOp) (op : FsOp) (fs : gmap string Node) :
  replay (ops ++ [op]) fs = apply_op op (replay ops fs).
Proof. unfold replay. by rewrite foldl_snoc. Qed.

Lemma replay_app (ops more : list FsOp) (fs : gmap string Node) :
  replay (ops ++ more) fs = replay more (replay ops fs).
Proof. unfold replay. by rewrite foldl_app. Qed.

(** [mkdir] either makes the missing directories, the topmost first, and
    leaves a directory at the path, or raises with nothing made. *)
Lemma mkdir_chain_inv (chain : list string) (w w' : World) (r : Res unit) :
  mkdir_chain chain w = (r, w') →
  (r = Ok tt
   ∧ same_but_files w w'
   ∧ fs_ops w' = fs_ops w ++ (OpMkdir <$> reverse (missing_above (files w) chain))
   ∧ files w' = replay (OpMkdir <$> reverse (missing_above (files w) chain)) (files w)
   ∧ (∃ path above, chain = path :: above ∧ files w' !! path = Some Dir)
   ∧ ∀ dir, dir ∈ missing_above (files w) chain →
       files w !! dir = None ∧ files w' !! dir = Some Dir)
  ∨ (r = Raise OSError ∧ w' = w).
Proof.
  revert w w' r.
  induction chain as [|path above IH]; intros w w' r; cbn [mkdir_chain missing_above].
  { intros [= <- <-]. by right. }
  destruct (files w !! path) as [[| content |] |] eqn:Hpath.
  - intros [= <- <-]. left. rewrite app_nil_r.
    split; [done|]. split; [done|]. split; [done|]. split; [done|].
    split; [by exists path, above|]. by intros dir ?%elem_of_nil.
  - intros [= <- <-]. by right.
  - intros [= <- <-]. by right.
  - unfold mbind, M_bind. destruct (mkdir_chain above w) as [[[]|e] w1] eqn:Hup.
    + apply IH in Hup as [(_ & Hsame & Hops & Hfiles & _ & Hmade) | [[=] _]].
      unfold mutate. intros [= <- <-]. left. rewrite reverse_cons, fmap_app.
      change (OpMkdir <$> [path]) with [OpMkdir path]. rewrite replay_snoc.
      cbn. rewrite Hops, <- Hfiles, <- app_assoc.
      destruct Hsame as (? & ? & ? & ? & ? & ?).
      split; [done|]. split; [done|]. split; [done|]. split; [done|].
      split; [exists path, above; by rewrite lookup_insert_eq|].
      intros dir [->|Hin]%elem_of_cons.
      * split; [done | apply lookup_insert_eq].
      * destruct (Hmade dir Hin) as [Hnone Hdir]. split; [done|].
        destruct (decide (path = dir)) as [->|Hne]; [apply lookup_insert_eq|].
        by rewrite lookup_insert_ne.
    + apply IH in Hup as [([=] & _) | [[= ->] ->]]. intros [= <- <-]. by right.
Qed.

(** ** Saving *)

Lemma new_ops_app (w w' : World) (ops : list FsOp) :
  fs_ops w' = fs_ops w ++ ops → new_ops w w' = ops.
Proof. intros Hops. unfold new_ops. by rewrite Hops, drop_app_length. Qed.

Lemma new_ops_same (w w' : World) : fs_ops w' = fs_ops w → new_ops w w' = [].
Proof. intros Hops. apply new_ops_app. by rewrite app_nil_r. Qed.

Lemma save_state_inv (paths : KctxPaths) (state : gmap string string)
    (w w' : World) (r : Res unit) :
  save_state paths state w = (r, w') →
  same_but_files w w'
  ∧ ((r = Ok tt
      ∧ fs_ops w' = fs_ops w ++ save_ops paths state w
      ∧ files w' = replay (save_ops paths state w) (files w)
      ∧ files w' !! state_file paths = Some (Text (json_dumps state 2 true))
      ∧ files w' !! base_dir paths = Some Dir)
     ∨ ((∃ e, r = Raise e)
        ∧ ∃ dirs,
            (∀ dir, dir ∈ dirs → dir ∈ base_dirs paths)
            ∧ fs_ops w' = fs_ops w ++ (OpMkdir <$> dirs)
            ∧ files w' = replay (OpMkdir <$> dirs) (files w))).
Proof.
  unfold save_state, ensure_base_dir, mkdir. unfold mbind at 1, M_bind at 1.
  destruct (mkdir_chain _ w) as [made w1] eqn:Hmade.
  apply mkdir_chain_inv in Hmade
    as [(-> & Hsame & Hops & Hfiles & (path & above & [= <- <-] & Hbase) & _) | [-> ->]].
  - fold (missing_dirs (files w) (base_dir paths)) in Hops, Hfiles.
    assert (∀ dir, dir ∈ missing_dirs (files w) (base_dir paths) → dir ∈ base_dirs paths)
      as Hdirs
      by (intros dir Hin; unfold missing_dirs in Hin; rewrite elem_of_reverse in Hin;
          by apply missing_above_chain in Hin).
    assert (files w1 !! state_file paths ≠ Some Dir →
            state_file paths ≠ base_dir paths) as Hne by congruence.
    assert (∀ w2,
              w2 = record_op (OpWrite (state_file paths) (json_dumps state 2 true))
                     (record_op (OpTruncate (state_file paths)) w1) →
              files w1 !! state_file paths ≠ Some Dir →
              same_but_files w w2
              ∧ fs_ops w2 = fs_ops w ++ save_ops paths state w
              ∧ files w2 = replay (save_ops paths state w) (files w)
              ∧ files w2 !! state_file paths = Some (Text (json_dumps state 2 true))
              ∧ files w2 !! base_dir paths = Some Dir) as Hwritten.
    { intros w2 -> Hfile%Hne. unfold save_ops. rewrite replay_app, <- Hfiles.
      cbn [record_op files fs_ops kube calls sys_stdout sys_stderr stdout_isatty
             stderr_isatty apply_op].
      rewrite Hops, <- !app_assoc. split; [exact Hsame|]. split; [reflexivity|].
      split; [reflexivity|]. split; [apply lookup_insert_eq|].
      by rewrite !lookup_insert_ne. }
    unfold write_text, mutate, mbind, M_bind.
    destruct (files w1 !! state_file paths) as [[| content |] |] eqn:Hstate;
      intros [= <- <-].
    + split; [done|]. right. split; [by eexists|]. by eexists.
    + destruct (Hwritten _ eq_refl) as (? & ? & ? & ? & ?); [done|]. split; [done|].
      by left.
    + destruct (Hwritten _ eq_refl) as (? & ? & ? & ? & ?); [done|]. split; [done|].
      by left.
    + destruct (Hwritten _ eq_refl) as (? & ? & ? & ? & ?); [done|]. split; [done|].
      by left.
  - intros [= <- <-]. split; [done|]. right. split; [by eexists|].
    exists []. split; [by intros dir ?%elem_of_nil|]. cbn. by rewrite app_nil_r.
Qed.


Lemma record_last_context_run (paths : KctxPaths) (current : string) (w : World) :
  record_last_context paths (Some current) w
  = save_state paths (<["last_context" := current]> (persisted paths w)) w.
Proof.
  unfold record_last_context. by rewrite (bind_ok _ _ _ _ _ (load_state_run paths w)).
Qed.

(** ** Announcing the new current context *)

Lemma warn_if_prod_run (context : string) (paths : KctxPaths) (w : World) :
  warn_if_prod context paths w =
    (Ok tt,
     match labels_of paths w !! context with
     | Some label =>
         if is_prod (Some label)
         then to_stderr (warning_line label (stderr_isatty w) context) w
         else w
     | None => w
     end).
Proof.
  unfold warn_if_prod. rewrite (bind_ok _ _ _ _ _ (load_labels_run paths w)).
  destruct (labels_of paths w !! context) as [label|]; [|reflexivity].
  unfold is_prod. destruct (String.eqb (Py.lower label) "prod"); reflexivity.
Qed.

Lemma announce_new_current_run (paths : KctxPaths) (w : World) :
  announce_new_current paths w = (Ok tt, announced paths w).
Proof.
  unfold announce_new_current, announced.
  rewrite (bind_ok _ _ _ _ _ (get_current_context_run w)).
  destruct (known_current w) as [name|]; [|reflexivity].
  unfold mbind at 1, M_bind at 1.
  rewrite (bind_ok _ _ _ _ _ (load_labels_run paths (after_query w))).
  rewrite (labels_of_ext paths (after_query w) w) by reflexivity.
  unfold mbind, M_bind, result_line.
  destruct (labels_of paths w !! name) as [label|] eqn:Hlabel; cbn;
    rewrite warn_if_prod_run;
    (erewrite labels_of_ext; [rewrite Hlabel | reflexivity]); reflexivity.
Qed.

(** ** The commands, step by step *)

Lemma switch_context_command_run (paths : KctxPaths) (target : string) (w : World) :
  switch_context_command paths target w =
    match switch_target paths target w with
    | None => (Ok 1, to_stderr "No last context recorded yet." (after_query w))
    | Some name =>
        let switched := called (argv_use name) (after_query w) in
        if returncode (outcome (argv_use name) (after_query w)) =? 0 then
          match record_last_context paths (known_current w) switched with
          | (Ok _, recorded) => (Ok 0, announced paths recorded)
          | (Raise e, recorded) => (Raise e, recorded)
          end
        else
          (Ok 1,
           to_stderr (switch_failure name (outcome (argv_use name) (after_query w))) switched)
    end.
Proof.
  assert (∀ name,
    (failed ← or_report (use_context name);
     match failed with
     | Some code => mret code
     | None =>
         match known_current w with
         | Some _ => record_last_context paths (known_current w)
         | None => mret tt
         end;;
         announce_new_current paths;;
         mret 0
     end) (after_query w)
    = let switched := called (argv_use name) (after_query w) in
      if returncode (outcome (argv_use name) (after_query w)) =? 0 then
        match record_last_context paths (known_current w) switched with
        | (Ok _, recorded) => (Ok 0, announced paths recorded)
        | (Raise e, recorded) => (Raise e, recorded)
        end
      else
        (Ok 1,
         to_stderr (switch_failure name (outcome (argv_use name) (after_query w))) switched))
    as Hrest.
  { intros name. cbn zeta.
    unfold mbind at 1, M_bind at 1. rewrite or_report_use_context.
    destruct (returncode (outcome (argv_use name) (after_query w)) =? 0);
      [|reflexivity].
    unfold mbind at 1, M_bind at 1.
    replace (match known_current w with
             | Some _ => record_last_context paths (known_current w)
             | None => mret tt
             end) with (record_last_context paths (known_current w))
      by (by destruct (known_current w)).
    destruct (record_last_context paths (known_current w)
                (called (argv_use name) (after_query w))) as [[[]|e] recorded];
      [|reflexivity].
    by rewrite (bind_ok _ _ _ _ _ (announce_new_current_run paths recorded)). }
  unfold switch_context_command, switch_target.
  destruct (String.eqb target "-").
  - rewrite (bind_ok _ _ _ _ _ (get_current_context_run w)).
    rewrite (bind_ok _ _ _ _ _ (get_last_context_run paths (after_query w))).
    rewrite (persisted_ext paths (after_query w) w) by reflexivity.
    destruct (persisted paths w !! "last_context") as [last|]; [|reflexivity].
    apply Hrest.
  - rewrite (bind_ok _ _ _ _ _ (get_current_context_run w)). apply Hrest.
Qed.

Lemma rename_context_command_run (old new : string) (paths : KctxPaths) (w : World) :
  rename_context_command old new paths w =
    let renamed := called (argv_rename old new) w in
    if returncode (outcome (argv_rename old new) w) =? 0 then
      if decide (persisted paths w !! "last_context" = Some old) then
        match save_state paths (<["last_context" := new]> (persisted paths w)) renamed with
        | (Ok _, saved) => (Ok 0, saved)
        | (Raise e, saved) => (Raise e, saved)
        end
      else (Ok 0, renamed)
    else
      (Ok 1, to_stderr (rename_failure old new (outcome (argv_rename old new) w)) renamed).
Proof.
  unfold rename_context_command. cbn zeta.
  unfold mbind at 1, M_bind at 1. rewrite or_report_rename_context.
  destruct (returncode (outcome (argv_rename old new) w) =? 0); [|reflexivity].
  rewrite (bind_ok _ _ _ _ _ (load_state_run paths _)).
  rewrite (persisted_ext paths (called (argv_rename old new) w) w) by reflexivity.
  unfold mbind, M_bind.
  destruct (decide (persisted paths w !! "last_context" = Some old)); [|reflexivity].
  destruct (save_state _ _ _) as [[[]|err] saved]; reflexivity.
Qed.

Lemma delete_context_command_run (name : string) (paths : KctxPaths) (w : World) :
  delete_context_command name paths w =
    let deleted := called (argv_delete name) w in
    if returncode (outcome (argv_delete name) w) =? 0 then
      if decide (persisted paths w !! "last_context" = Some name) then
        match save_state paths (delete "last_context" (persisted paths w)) deleted with
        | (Ok _, saved) => (Ok 0, saved)
        | (Raise e, saved) => (Raise e, saved)
        end
      else (Ok 0, deleted)
    else
      (Ok 1, to_stderr (delete_failure name (outcome (argv_delete name) w)) deleted).
Proof.
  unfold delete_context_command. cbn zeta.
  rewrite (bind_ok _ _ _ _ _ (load_state_run paths w)).
  unfold mbind at 1, M_bind at 1. rewrite or_report_delete_context.
  destruct (returncode (outcome (argv_delete name) w) =? 0); [|reflexivity].
  unfold mbind, M_bind.
  destruct (decide (persisted paths w !! "last_context" = Some name)); [|reflexivity].
  destruct (save_state _ _ _) as [[[]|err] saved]; reflexivity.
Qed.

(** ** What a successful command went through *)

Lemma announced_frame (paths : KctxPaths) (w : World) :
  files (announced paths w) = files w
  ∧ fs_ops (announced paths w) = fs_ops w
  ∧ calls (announced paths w) = calls w ++ [(argv_current, outcome argv_current w)]
  ∧ kube (announced paths w) = kube (after_query w)
  ∧ stdout_isatty (announced paths w) = stdout_isatty w
  ∧ stderr_isatty (announced paths w) = stderr_isatty w.
Proof.
  unfold announced. destruct (known_current w) as [name|]; [|done].
  destruct (labels_of paths w !! name) as [label|]; [|done].
  cbn zeta. by destruct (is_prod (Some label)).
Qed.

Lemma record_last_context_inv (paths : KctxPaths) (current : option string)
    (w w' : World) (r : Res unit) :
  record_last_context paths current w = (r, w') →
  same_but_files w w'
  ∧ match current with
    | None => r = Ok tt ∧ files w' = files w ∧ fs_ops w' = fs_ops w
    | Some previous =>
        let saved := <["last_context" := previous]> (persisted paths w) in
        (r = Ok tt
         ∧ fs_ops w' = fs_ops w ++ save_ops paths saved w
         ∧ files w' = replay (save_ops paths saved w) (files w)
         ∧ files w' !! state_file paths = Some (Text (json_dumps saved 2 true))
         ∧ files w' !! base_dir paths = Some Dir)
        ∨ ((∃ e, r = Raise e)
           ∧ ∃ dirs,
               (∀ dir, dir ∈ dirs → dir ∈ base_dirs paths)
               ∧ fs_ops w' = fs_ops w ++ (OpMkdir <$> dirs)
               ∧ files w' = replay (OpMkdir <$> dirs) (files w))
    end.
Proof.
  destruct current as [previous|].
  - rewrite record_last_context_run. apply save_state_inv.
  - intros [= <- <-]. done.
Qed.

Lemma switch_success (paths : KctxPaths) (target : string) (w w' : World) :
  switch_context_command paths target w = (Ok 0, w') →
  ∃ name recorded,
    switch_target paths target w = Some name
    ∧ returncode (outcome (argv_use name) (after_query w)) = 0
    ∧ record_last_context paths (known_current w) (called (argv_use name) (after_query w))
      = (Ok tt, recorded)
    ∧ w' = announced paths recorded.
Proof.
  rewrite switch_context_command_run.
  destruct (switch_target paths target w) as [name|]; [|discriminate].
  cbn zeta.
  destruct (returncode (outcome (argv_use name) (after_query w)) =? 0) eqn:Hcode;
    [|discriminate].
  destruct (record_last_context _ _ _) as [[[]|e] recorded] eqn:Hrec; [|discriminate].
  intros [= <-]. exists name, recorded. by apply Z.eqb_eq in Hcode.
Qed.

(** ** The dictionary built from the items of a parsed object *)



(** ** The frame of a save *)

Lemma no_new_ops_keep (paths : KctxPaths) (w w' : World) :
  fs_ops w' = fs_ops w → writes_keep_other_keys paths w w'.
Proof.
  intros Hops path text. rewrite (new_ops_same _ _ Hops). by intros ?%elem_of_nil.
Qed.

(** A save made in a world [w0] that has the files and the mutation log of
    [w] keeps the other keys of the state loaded in [w], provided the
    mapping it is given does. *)
Lemma save_state_keeps (paths : KctxPaths) (saved : gmap string string)
    (w w0 w' : World) (r : Res unit) :
  fs_ops w0 = fs_ops w →
  (∀ key, key ≠ "last_context" → saved !! key = persisted paths w !! key) →
  save_state paths saved w0 = (r, w') →
  writes_keep_other_keys paths w w'.
Proof.
  intros Hlog Hkeys Hsave path text.
  apply save_state_inv in Hsave as [_ [(_ & Hops & _) | [_ (dirs & _ & Hops & _)]]];
    rewrite Hlog in Hops.
  - rewrite (new_ops_app _ _ _ Hops). unfold save_ops.
    rewrite elem_of_app, !elem_of_cons, elem_of_nil.
    intros [(dir & [=] & _)%list_elem_of_fmap | [[=] | [[= -> ->] | []]]].
    split; [done|]. by exists saved.
  - rewrite (new_ops_app _ _ _ Hops). by intros (dir & [=] & _)%list_elem_of_fmap.
Qed.

(** ** What a switch prints *)

Lemma announced_streams (paths : KctxPaths) (w : World) :
  match known_current w with
  | Some current =>
      let env := labels_of paths w !! current in
      sys_stdout (announced paths w)
      = sys_stdout w ++ [result_line env (stdout_isatty w) current]
      ∧ sys_stderr (announced paths w)
        = sys_stderr w ++ warnings env (stderr_isatty w) current
  | None =>
      sys_stdout (announced paths w) = sys_stdout w
      ∧ sys_stderr (announced paths w) = sys_stderr w
  end.
Proof.
  unfold announced, warnings. destruct (known_current w) as [current|]; [|done].
  destruct (labels_of paths w !! current) as [label|]; cbn zeta.
  - destruct (is_prod (Some label)); cbn; by rewrite ?app_nil_r.
  - cbn. by rewrite app_nil_r.
Qed.

(** ** One toggle, under the tool's side of the protocol *)

Lemma after_query_kube (w : World) : query_is_pure → kube (after_query w) = kube w.
Proof. intros Hpure. apply Hpure. Qed.

Lemma known_current_kube (w1 w2 : World) :
  kube w1 = kube w2 → known_current w1 = known_current w2.
Proof. intros Hk. rewrite !known_current_outcome. unfold outcome. by rewrite Hk. Qed.

Lemma toggle_step (paths : KctxPaths) (w w' : World) (current last : string) :
  query_is_pure → switch_takes_effect last →
  known_current w = Some current →
  persisted paths w !! "last_context" = Some last →
  reads_back (<["last_context" := current]> (persisted paths w)) →
  switch_context_command paths "-" w = (Ok 0, w') →
  known_current w' = Some last
  ∧ persisted paths w' = <["last_context" := current]> (persisted paths w).
Proof.
  intros Hpure Heffect Hcurrent Hlast Hback
    (name & recorded & Hname & Hcode & Hrec & ->)%switch_success.
  unfold switch_target in Hname. cbn in Hname. rewrite Hlast in Hname.
  injection Hname as <-.
  rewrite Hcurrent in Hrec.
  apply record_last_context_inv in Hrec as [(Hkube & _) Hrec]. cbn zeta in Hrec.
  rewrite (persisted_ext paths _ w) in Hrec by reflexivity.
  destruct Hrec as [(_ & _ & _ & Hstate & _) | [[e [=]] _]].
  destruct (announced_frame paths recorded) as (Hfiles & _ & _ & Hk & _).
  split.
  - rewrite known_current_outcome. unfold outcome.
    rewrite Hk, (after_query_kube _ Hpure), Hkube. by apply Heffect.
  - rewrite (persisted_text paths _ (json_dumps (<["last_context" := current]>
                                                   (persisted paths w)) 2 true)).
    + apply Hback.
    + by rewrite Hfiles.
Qed.

(** ** What a reader can see during a save *)



End Facts.

(** * The claims *)

(** C1: after a switch command that succeeds (any target, so in particular
    every target other than ["-"]), if the current context just before the
    switch was a known name, the state file holds the serialization of the
    state loaded before with [last_context] set to that name, whatever it
    was before, so the persisted [last_context] reads as that name; if no
    current context was known, the file system is left as it was. *)
Theorem switch_records_previous `{Platform} (paths : KctxPaths) (target : string)
    (w w' : World) :
  switch_context_command paths target w = (Ok 0, w') →
  match known_current w with
  | Some previous =>
      let saved := <["last_context" := previous]> (persisted paths w) in
      files w' !! state_file paths = Some (Text (json_dumps saved 2 true))
      ∧ saved !! "last_context" = Some previous
      ∧ (reads_back saved → persisted paths w' !! "last_context" = Some previous)
  | None => files w' = files w ∧ fs_ops w' = fs_ops w
  end.
Proof.
  intros (name & recorded & _ & _ & Hrec & ->)%switch_success.
  destruct (announced_frame paths recorded) as (Hfiles & Hops & _).
  apply record_last_context_inv in Hrec as [_ Hrec].
  destruct (known_current w) as [previous|].
  - cbn zeta in Hrec |- *.
    rewrite (persisted_ext paths _ w) in Hrec by reflexivity.
    destruct Hrec as [(_ & _ & _ & Hstate & _) | [[e [=]] _]].
    rewrite Hfiles. split; [done|]. split; [by rewrite lookup_insert_eq|].
    intros Hback. rewrite (persisted_text paths _ _) by (by rewrite Hfiles).
    by rewrite Hback, lookup_insert_eq.
  - destruct Hrec as (_ & Hf & Ho). by rewrite Hfiles, Hops, Hf, Ho.
Qed.

Lemma switch_records_previous_witness :
  let w' := (switch_context_command Sample.paths "prod-cluster" Sample.settled).2 in
  let saved := <["last_context" := "a"]> (persisted Sample.paths Sample.settled) in
  files w' !! state_file Sample.paths = Some (Text (json_dumps saved 2 true))
  ∧ saved !! "last_context" = Some "a"
  ∧ reads_back saved
  ∧ persisted Sample.paths w' !! "last_context" = Some "a".
Proof.
  assert (reads_back (<["last_context" := "a"]> (persisted Sample.paths Sample.settled)))
    as Hback by (vm_compute; reflexivity).
  assert (files (switch_context_command Sample.paths "prod-cluster" Sample.settled).2
            !! state_file Sample.paths
          = Some (Text (json_dumps (<["last_context" := "a"]> (persisted Sample.paths Sample.settled)) 2 true))
          ∧ (<["last_context" := "a"]> (persisted Sample.paths Sample.settled)) !! "last_context" = Some "a"
          ∧ (reads_back (<["last_context" := "a"]> (persisted Sample.paths Sample.settled)) →
             persisted Sample.paths (switch_context_command Sample.paths "prod-cluster" Sample.settled).2
               !! "last_context" = Some "a"))
    as (Hfile & Hsaved & Hlast).
  { apply (switch_records_previous Sample.paths "prod-cluster" Sample.settled).
    apply run_eq. vm_compute. reflexivity. }
  exact (conj Hfile (conj Hsaved (conj Hback (Hlast Hback)))).
Defined.

(** C2: with a tool whose [current-context] changes nothing and whose
    successful [use-context] of [A] or of [B] makes it answer that context,
    start on context [A] with [B] persisted as [last_context]; two toggles
    that both succeed leave the current context [A] and the persisted
    [last_context] [B]: the whole persisted state is what it was.  The two
    states written on the way are assumed to load as they were saved. *)
Theorem toggle_twice_restores `{Platform} (paths : KctxPaths) (w w1 w2 : World)
    (A B : string) :
  query_is_pure → switch_takes_effect A → switch_takes_effect B →
  known_current w = Some A →
  persisted paths w !! "last_context" = Some B →
  switch_context_command paths "-" w = (Ok 0, w1) →
  switch_context_command paths "-" w1 = (Ok 0, w2) →
  reads_back (<["last_context" := A]> (persisted paths w)) →
  reads_back (persisted paths w) →
  known_current w2 = Some A
  ∧ persisted paths w2 !! "last_context" = Some B
  ∧ persisted paths w2 = persisted paths w
  ∧ known_current w1 = Some B
  ∧ persisted paths w1 !! "last_context" = Some A.
Proof.
  intros Hpure HeffectA HeffectB HA HB Hfirst Hsecond Hback1 Hback2.
  destruct (toggle_step paths w w1 A B Hpure HeffectB HA HB Hback1 Hfirst)
    as [Hcur1 Hstate1].
  assert (<["last_context" := B]> (persisted paths w1) = persisted paths w) as Hround.
  { rewrite Hstate1, insert_insert_eq. by apply insert_id. }
  assert (persisted paths w1 !! "last_context" = Some A) as Hlast1
    by (by rewrite Hstate1, lookup_insert_eq).
  destruct (toggle_step paths w1 w2 B A Hpure HeffectA Hcur1 Hlast1) as [Hcur2 Hstate2];
    [by rewrite Hround | done |].
  rewrite Hstate2, Hround. done.
Qed.

(** The sample tool keeps its side of the protocol. *)

Lemma sample_query_is_pure : query_is_pure.
Proof. intros k. cbn. by destruct (Sample.current_context k). Qed.

Lemma toggle_twice_restores_witness :
  let w1 := (switch_context_command Sample.paths "-" Sample.settled).2 in
  let w2 := (switch_context_command Sample.paths "-" w1).2 in
  known_current w2 = Some "a"
  ∧ persisted Sample.paths w2 !! "last_context" = Some "b"
  ∧ persisted Sample.paths w2 = persisted Sample.paths Sample.settled
  ∧ known_current w1 = Some "b"
  ∧ persisted Sample.paths w1 !! "last_context" = Some "a".
Proof.
  apply (toggle_twice_restores Sample.paths Sample.settled).
  - exact sample_query_is_pure.
  - intros k. cbn. destruct (bool_decide _); [reflexivity | discriminate].
  - intros k. cbn. destruct (bool_decide _); [reflexivity | discriminate].
  - vm_compute. reflexivity.
  - vm_compute. reflexivity.
  - apply run_eq. vm_compute. reflexivity.
  - apply run_eq. vm_compute. reflexivity.
  - vm_compute. reflexivity.
  - vm_compute. reflexivity.
Defined.

(** C3: when the call a switch, toggle, rename or delete command delegates
    to [kubectl] exits non-zero, the command returns status 1, prints on
    [stderr] one line that ends with the tool's [stderr] text (stripped of
    surrounding white space; ["kubectl failed"] when nothing is left), and
    leaves the files untouched: no mutation of the file system at all. *)
Theorem failed_call_leaves_state `{Platform} (paths : KctxPaths) (cmd : Command)
    (w issued : World) (argv : list string) (failure : CompletedProcess → string) :
  delegated paths cmd w = Some (argv, issued, failure) →
  returncode (outcome argv issued) ≠ 0 →
  ∃ w',
    run_command paths cmd w = (Ok 1, w')
    ∧ sys_stderr w' = sys_stderr w ++ [failure (outcome argv issued)]
    ∧ (∃ prefix, failure (outcome argv issued)
                 = prefix +:+ error_text (outcome argv issued))
    ∧ (Py.strip (stderr (outcome argv issued)) ≠ EmptyString →
       error_text (outcome argv issued) = Py.strip (stderr (outcome argv issued)))
    ∧ files w' = files w
    ∧ fs_ops w' = fs_ops w
    ∧ sys_stdout w' = sys_stdout w.
Proof.
  intros Hcall Hfail. apply Z.eqb_neq in Hfail.
  assert (Py.strip (stderr (outcome argv issued)) ≠ EmptyString →
          error_text (outcome argv issued) = Py.strip (stderr (outcome argv issued)))
    as Htext by apply or_else_nonempty.
  destruct cmd as [target | old new | name]; cbn in Hcall |- *.
  - destruct (switch_target paths target w) as [goal|] eqn:Hgoal; [|done].
    injection Hcall as <- <- <-.
    rewrite switch_context_command_run, Hgoal. cbn zeta. rewrite Hfail.
    eexists. split; [reflexivity|]. repeat split; try done.
    exists ("Failed to switch context to " +:+ Py.repr goal +:+ ": ").
    unfold switch_failure. by rewrite !append_assoc.
  - injection Hcall as <- <- <-.
    rewrite rename_context_command_run. cbn zeta. rewrite Hfail.
    eexists. split; [reflexivity|]. repeat split; try done.
    exists ("Failed to rename context " +:+ Py.repr old +:+ " → " +:+ Py.repr new +:+ ": ").
    unfold rename_failure. by rewrite !append_assoc.
  - injection Hcall as <- <- <-.
    rewrite delete_context_command_run. cbn zeta. rewrite Hfail.
    eexists. split; [reflexivity|]. repeat split; try done.
    exists ("Failed to delete context " +:+ Py.repr name +:+ ": ").
    unfold delete_failure. by rewrite !append_assoc.
Qed.

Lemma failed_call_leaves_state_witness :
  ∃ w',
    run_command Sample.paths (Switch "zzz") Sample.settled = (Ok 1, w')
    ∧ sys_stderr w'
      = sys_stderr Sample.settled
        ++ [switch_failure "zzz" (outcome (argv_use "zzz") (after_query Sample.settled))]
    ∧ (∃ prefix, switch_failure "zzz" (outcome (argv_use "zzz") (after_query Sample.settled))
                 = prefix +:+ error_text (outcome (argv_use "zzz") (after_query Sample.settled)))
    ∧ (Py.strip (stderr (outcome (argv_use "zzz") (after_query Sample.settled))) ≠ EmptyString →
       error_text (outcome (argv_use "zzz") (after_query Sample.settled))
       = Py.strip (stderr (outcome (argv_use "zzz") (after_query Sample.settled))))
    ∧ files w' = files Sample.settled
    ∧ fs_ops w' = fs_ops Sample.settled
    ∧ sys_stdout w' = sys_stdout Sample.settled.
Proof.
  apply (failed_call_leaves_state Sample.paths (Switch "zzz") Sample.settled
           (after_query Sample.settled) (argv_use "zzz") (switch_failure "zzz")).
  - reflexivity.
  - vm_compute. discriminate.
Defined.

(** The same on a rename and on a delete of a context the sample tool does
    not know, and on a toggle whose persisted target is gone. *)
Example failed_rename_on_sample :
  (rename_context_command "zzz" "b2" Sample.paths Sample.settled).1 = Ok 1
  ∧ fs_ops (rename_context_command "zzz" "b2" Sample.paths Sample.settled).2 = []
  ∧ sys_stderr (rename_context_command "zzz" "b2" Sample.paths Sample.settled).2
    = ["Failed to rename context 'zzz' → 'b2': error: cannot rename the context "
       +:+ Sample.quoted "zzz"].
Proof. vm_compute. done. Qed.

Example failed_delete_on_sample :
  (delete_context_command "zzz" Sample.paths Sample.settled).1 = Ok 1
  ∧ fs_ops (delete_context_command "zzz" Sample.paths Sample.settled).2 = []
  ∧ sys_stderr (delete_context_command "zzz" Sample.paths Sample.settled).2
    = ["Failed to delete context 'zzz': error: cannot delete context zzz, not in the config"].
Proof. vm_compute. done. Qed.

(** C4: a switch or toggle that succeeds has run [use-context] with exit
    status 0 and then asked for the current context again; when that answer
    names a context, its line goes to [stdout] and, exactly when the label
    table gives it a label whose lower-case form is ["prod"], one warning
    line goes to [stderr] and nowhere else; for any other label, for no
    label and for no current context nothing goes to [stderr].  The exit
    status is 0 either way. *)
Theorem prod_warning_after_switch `{Platform} (paths : KctxPaths) (target : string)
    (w w' : World) :
  switch_context_command paths target w = (Ok 0, w') →
  ∃ name queried switched landed,
    switch_target paths target w = Some name
    ∧ calls w' = calls w ++ [(argv_current, queried); (argv_use name, switched);
                             (argv_current, landed)]
    ∧ returncode switched = 0
    ∧ match current_of landed with
      | Some current =>
          let env := labels_of paths w' !! current in
          sys_stdout w' = sys_stdout w ++ [result_line env (stdout_isatty w) current]
          ∧ (is_prod env = true →
             ∃ label, env = Some label
               ∧ sys_stderr w'
                 = sys_stderr w ++ [warning_line label (stderr_isatty w) current])
          ∧ (is_prod env = false → sys_stderr w' = sys_stderr w)
      | None => sys_stdout w' = sys_stdout w ∧ sys_stderr w' = sys_stderr w
      end.
Proof.
  intros (name & recorded & Hname & Hcode & Hrec & ->)%switch_success.
  apply record_last_context_inv in Hrec as [(_ & Hcalls & Hout & Herr & Hotty & Hetty) _].
  destruct (announced_frame paths recorded) as (Hfiles & _ & Hlog & _).
  exists name, (outcome argv_current w), (outcome (argv_use name) (after_query w)),
    (outcome argv_current recorded).
  split; [done|]. split; [by rewrite Hlog, Hcalls; cbn; rewrite <- !app_assoc|].
  split; [done|].
  pose proof (announced_streams paths recorded) as Hstreams.
  rewrite known_current_outcome in Hstreams.
  destruct (current_of (outcome argv_current recorded)) as [current|].
  - cbn zeta in Hstreams |- *.
    rewrite (labels_of_ext paths (announced paths recorded) recorded Hfiles).
    rewrite Hout, Herr, Hotty, Hetty in Hstreams. destruct Hstreams as [-> ->].
    split; [done|]. unfold warnings.
    destruct (labels_of paths recorded !! current) as [label|].
    + split; [intros ->; by exists label | intros ->; by rewrite app_nil_r].
    + split; [done | by rewrite app_nil_r].
  - by rewrite Hout, Herr in Hstreams.
Qed.

Lemma prod_warning_after_switch_witness :
  ∃ name queried switched landed,
    switch_target Sample.paths "prod-cluster" Sample.fresh = Some name
    ∧ calls (switch_context_command Sample.paths "prod-cluster" Sample.fresh).2
      = calls Sample.fresh ++ [(argv_current, queried); (argv_use name, switched);
                               (argv_current, landed)]
    ∧ returncode switched = 0
    ∧ match current_of landed with
      | Some current =>
          let env :=
            labels_of Sample.paths
              (switch_context_command Sample.paths "prod-cluster" Sample.fresh).2
            !! current in
          sys_stdout (switch_context_command Sample.paths "prod-cluster" Sample.fresh).2
          = sys_stdout Sample.fresh
            ++ [result_line env (stdout_isatty Sample.fresh) current]
          ∧ (is_prod env = true →
             ∃ label, env = Some label
               ∧ sys_stderr (switch_context_command Sample.paths "prod-cluster" Sample.fresh).2
                 = sys_stderr Sample.fresh
                   ++ [warning_line label (stderr_isatty Sample.fresh) current])
          ∧ (is_prod env = false →
             sys_stderr (switch_context_command Sample.paths "prod-cluster" Sample.fresh).2
             = sys_stderr Sample.fresh)
      | None =>
          sys_stdout (switch_context_command Sample.paths "prod-cluster" Sample.fresh).2
          = sys_stdout Sample.fresh
          ∧ sys_stderr (switch_context_command Sample.paths "prod-cluster" Sample.fresh).2
            = sys_stderr Sample.fresh
      end.
Proof.
  apply (prod_warning_after_switch Sample.paths "prod-cluster" Sample.fresh).
  apply run_eq. vm_compute. reflexivity.
Defined.

(** The four cases on the sample label file: [prod], [PROD], [dev], no label. *)
Example switch_to_prod_on_sample :
  (switch_context_command Sample.paths "prod-cluster" Sample.fresh).1 = Ok 0
  ∧ sys_stdout (switch_context_command Sample.paths "prod-cluster" Sample.fresh).2
    = ["[prod] prod-cluster"]
  ∧ sys_stderr (switch_context_command Sample.paths "prod-cluster" Sample.fresh).2
    = ["WARNING: context 'prod-cluster' is labeled [prod]"].
Proof. vm_compute. done. Qed.

Example switch_to_upper_case_prod_on_sample :
  (switch_context_command Sample.paths "payments" Sample.fresh).1 = Ok 0
  ∧ sys_stdout (switch_context_command Sample.paths "payments" Sample.fresh).2
    = ["[PROD] payments"]
  ∧ sys_stderr (switch_context_command Sample.paths "payments" Sample.fresh).2
    = ["WARNING: context 'payments' is labeled [PROD]"].
Proof. vm_compute. done. Qed.

Example toggle_to_dev_on_sample :
  (switch_context_command Sample.paths "-" Sample.settled).1 = Ok 0
  ∧ sys_stdout (switch_context_command Sample.paths "-" Sample.settled).2 = ["[dev] b"]
  ∧ sys_stderr (switch_context_command Sample.paths "-" Sample.settled).2 = [].
Proof. vm_compute. done. Qed.

Example switch_to_unlabelled_on_sample :
  (switch_context_command Sample.paths "a" Sample.fresh).1 = Ok 0
  ∧ sys_stdout (switch_context_command Sample.paths "a" Sample.fresh).2 = ["a"]
  ∧ sys_stderr (switch_context_command Sample.paths "a" Sample.fresh).2 = [].
Proof. vm_compute. done. Qed.

(** C5: a toggle (["-"]) in a world whose persisted state has no
    [last_context] returns status 1 and prints "No last context recorded
    yet." on [stderr], a message no failed switch produces; the only
    subprocess it runs is the query of the current context (no
    [use-context]), and it leaves the files and [stdout] as they were. *)
Theorem toggle_without_last_context `{Platform} (paths : KctxPaths) (w : World) :
  persisted paths w !! "last_context" = None →
  ∃ w',
    switch_context_command paths "-" w = (Ok 1, w')
    ∧ sys_stderr w' = sys_stderr w ++ ["No last context recorded yet."]
    ∧ (∀ name completed, "No last context recorded yet." ≠ switch_failure name completed)
    ∧ calls w' = calls w ++ [(argv_current, outcome argv_current w)]
    ∧ files w' = files w
    ∧ fs_ops w' = fs_ops w
    ∧ sys_stdout w' = sys_stdout w.
Proof.
  intros Hlast. eexists. split.
  - rewrite switch_context_command_run. unfold switch_target. cbn.
    rewrite Hlast. reflexivity.
  - cbn. repeat split. intros name completed. discriminate.
Qed.

Lemma toggle_without_last_context_witness :
  ∃ w',
    switch_context_command Sample.paths "-" Sample.fresh = (Ok 1, w')
    ∧ sys_stderr w' = sys_stderr Sample.fresh ++ ["No last context recorded yet."]
    ∧ (∀ name completed, "No last context recorded yet." ≠ switch_failure name completed)
    ∧ calls w' = calls Sample.fresh ++ [(argv_current, outcome argv_current Sample.fresh)]
    ∧ files w' = files Sample.fresh
    ∧ fs_ops w' = fs_ops Sample.fresh
    ∧ sys_stdout w' = sys_stdout Sample.fresh.
Proof. apply toggle_without_last_context. vm_compute. reflexivity. Defined.

(** C6: after a rename of [old] to [new] that succeeds, if the persisted
    [last_context] was [old], the state file holds the serialization of the
    loaded state with [last_context] set to [new]; for any other persisted
    value, or none, the file system is left as it was: nothing is written. *)
Theorem rename_follows_last_context `{Platform} (old new : string) (paths : KctxPaths)
    (w w' : World) :
  rename_context_command old new paths w = (Ok 0, w') →
  if decide (persisted paths w !! "last_context" = Some old) then
    let saved := <["last_context" := new]> (persisted paths w) in
    files w' !! state_file paths = Some (Text (json_dumps saved 2 true))
    ∧ saved !! "last_context" = Some new
    ∧ (reads_back saved → persisted paths w' !! "last_context" = Some new)
  else files w' = files w ∧ fs_ops w' = fs_ops w.
Proof.
  rewrite rename_context_command_run. cbn zeta.
  destruct (returncode (outcome (argv_rename old new) w) =? 0); [|discriminate].
  destruct (decide (persisted paths w !! "last_context" = Some old)) as [Hlast|Hother].
  - destruct (save_state _ _ _) as [[[]|e] saved] eqn:Hsave; [|discriminate].
    intros [= <-].
    apply save_state_inv in Hsave as [_ [(_ & _ & _ & Hstate & _) | [[e [=]] _]]].
    split; [done|]. split; [by rewrite lookup_insert_eq|].
    intros Hback. by rewrite (persisted_text paths _ _ Hstate), Hback, lookup_insert_eq.
  - by intros [= <-].
Qed.

Lemma rename_follows_last_context_witness :
  let w' := (rename_context_command "b" "b2" Sample.paths Sample.settled).2 in
  let saved := <["last_context" := "b2"]> (persisted Sample.paths Sample.settled) in
  files w' !! state_file Sample.paths = Some (Text (json_dumps saved 2 true))
  ∧ saved !! "last_context" = Some "b2"
  ∧ reads_back saved
  ∧ persisted Sample.paths w' !! "last_context" = Some "b2".
Proof.
  assert (reads_back (<["last_context" := "b2"]> (persisted Sample.paths Sample.settled)))
    as Hback by (vm_compute; reflexivity).
  assert (files (rename_context_command "b" "b2" Sample.paths Sample.settled).2
            !! state_file Sample.paths
          = Some (Text (json_dumps (<["last_context" := "b2"]> (persisted Sample.paths Sample.settled)) 2 true))
          ∧ (<["last_context" := "b2"]> (persisted Sample.paths Sample.settled)) !! "last_context" = Some "b2"
          ∧ (reads_back (<["last_context" := "b2"]> (persisted Sample.paths Sample.settled)) →
             persisted Sample.paths (rename_context_command "b" "b2" Sample.paths Sample.settled).2
               !! "last_context" = Some "b2"))
    as (Hfile & Hsaved & Hlast).
  { apply (rename_follows_last_context "b" "b2" Sample.paths Sample.settled).
    apply run_eq. vm_compute. reflexivity. }
  exact (conj Hfile (conj Hsaved (conj Hback (Hlast Hback)))).
Defined.

(** Renaming another context writes nothing. *)
Example rename_of_another_context_on_sample :
  (rename_context_command "payments" "billing" Sample.paths Sample.settled).1 = Ok 0
  ∧ fs_ops (rename_context_command "payments" "billing" Sample.paths Sample.settled).2 = [].
Proof. vm_compute. done. Qed.

(** C7: after a delete of [name] that succeeds, if the persisted
    [last_context] was [name], the state file holds the serialization of the
    loaded state without the key [last_context]; for any other name the file
    system is left as it was. *)
Theorem delete_forgets_last_context `{Platform} (name : string) (paths : KctxPaths)
    (w w' : World) :
  delete_context_command name paths w = (Ok 0, w') →
  if decide (persisted paths w !! "last_context" = Some name) then
    let saved := delete "last_context" (persisted paths w) in
    files w' !! state_file paths = Some (Text (json_dumps saved 2 true))
    ∧ saved !! "last_context" = None
    ∧ (reads_back saved → persisted paths w' !! "last_context" = None)
  else files w' = files w ∧ fs_ops w' = fs_ops w.
Proof.
  rewrite delete_context_command_run. cbn zeta.
  destruct (returncode (outcome (argv_delete name) w) =? 0); [|discriminate].
  destruct (decide (persisted paths w !! "last_context" = Some name)) as [Hlast|Hother].
  - destruct (save_state _ _ _) as [[[]|e] saved] eqn:Hsave; [|discriminate].
    intros [= <-].
    apply save_state_inv in Hsave as [_ [(_ & _ & _ & Hstate & _) | [[e [=]] _]]].
    split; [done|]. split; [by rewrite lookup_delete_eq|].
    intros Hback. by rewrite (persisted_text paths _ _ Hstate), Hback, lookup_delete_eq.
  - by intros [= <-].
Qed.

Lemma delete_forgets_last_context_witness :
  let w' := (delete_context_command "b" Sample.paths Sample.settled).2 in
  let saved := delete "last_context" (persisted Sample.paths Sample.settled) in
  files w' !! state_file Sample.paths = Some (Text (json_dumps saved 2 true))
  ∧ saved !! "last_context" = None
  ∧ reads_back saved
  ∧ persisted Sample.paths w' !! "last_context" = None.
Proof.
  assert (reads_back (delete "last_context" (persisted Sample.paths Sample.settled)))
    as Hback by (vm_compute; reflexivity).
  assert (files (delete_context_command "b" Sample.paths Sample.settled).2
            !! state_file Sample.paths
          = Some (Text (json_dumps (delete "last_context" (persisted Sample.paths Sample.settled)) 2 true))
          ∧ (delete "last_context" (persisted Sample.paths Sample.settled)) !! "last_context" = None
          ∧ (reads_back (delete "last_context" (persisted Sample.paths Sample.settled)) →
             persisted Sample.paths (delete_context_command "b" Sample.paths Sample.settled).2
               !! "last_context" = None))
    as (Hfile & Hsaved & Hlast).
  { apply (delete_forgets_last_context "b" Sample.paths Sample.settled).
    apply run_eq. vm_compute. reflexivity. }
  exact (conj Hfile (conj Hsaved (conj Hback (Hlast Hback)))).
Defined.

(** Deleting another context writes nothing. *)
Example delete_of_another_context_on_sample :
  (delete_context_command "payments" Sample.paths Sample.settled).1 = Ok 0
  ∧ fs_ops (delete_context_command "payments" Sample.paths Sample.settled).2 = [].
Proof. vm_compute. done. Qed.


(** On the sample: a state file with values of several types, one that is
    not an object, one that does not parse, a directory in its place. *)
Example load_state_coerces_on_sample :
  let text :=
    "{" +:+ Sample.quoted "last_context" +:+ ": " +:+ Sample.quoted "dev" +:+ ", "
    +:+ Sample.quoted "count" +:+ ": 5, "
    +:+ Sample.quoted "flag" +:+ ": true, "
    +:+ Sample.quoted "none" +:+ ": null, "
    +:+ Sample.quoted "list" +:+ ": [1, " +:+ Sample.quoted "x" +:+ "]}" in
  let w := Sample.world (Sample.cluster None)
             (<[state_file Sample.paths := Text text]> Sample.labelled) in
  (load_state Sample.paths w).1
  = Ok (<["last_context" := "dev"]>
          (<["count" := "5"]>
             (<["flag" := "True"]> (<["none" := "None"]> (<["list" := "[1, 'x']"]> ∅))))).
Proof. vm_compute. reflexivity. Qed.

Example load_state_fails_soft_on_sample :
  let at_state node :=
    Sample.world (Sample.cluster None) (<[state_file Sample.paths := node]> Sample.labelled) in
  (load_state Sample.paths (at_state (Text "[1, 2]"))).1 = Ok ∅
  ∧ (load_state Sample.paths (at_state (Text "{not json"))).1 = Ok ∅
  ∧ (load_state Sample.paths (at_state (Text EmptyString))).1 = Ok ∅
  ∧ (load_state Sample.paths (at_state Dir)).1 = Ok ∅
  ∧ (load_state Sample.paths (at_state Unreadable)).1 = Ok ∅
  ∧ (load_state Sample.paths Sample.fresh).1 = Ok ∅.
Proof. vm_compute. done. Qed.



(** On the sample: with nothing in the home directory, the save makes
    [.config] and the base directory under it, in this order, before it
    touches the state file; next to an existing base directory it makes
    none. *)
Example save_state_makes_the_directories_on_sample :
  let state : gmap string string := <["last_context" := "a"]> ∅ in
  fs_ops (save_state Sample.paths state Sample.bare).2
  = [OpMkdir "/home/dev/.config"; OpMkdir "/home/dev/.config/kctx";
     OpTruncate "/home/dev/.config/kctx/state.json";
     OpWrite "/home/dev/.config/kctx/state.json" (json_dumps state 2 true)]
  ∧ fs_ops (save_state Sample.paths state Sample.fresh).2
    = [OpTruncate "/home/dev/.config/kctx/state.json";
       OpWrite "/home/dev/.config/kctx/state.json" (json_dumps state 2 true)].
Proof. vm_compute. done. Qed.

(** A file in the place of a directory on the way stops the save before
    anything is made. *)
Example save_state_stops_at_a_file_on_sample :
  let state : gmap string string := <["last_context" := "a"]> ∅ in
  let w := Sample.world (Sample.cluster (Some "a"))
             (<["/home/dev/.config" := Text "not a directory"]> Sample.home) in
  (save_state Sample.paths state w).1 = Raise OSError
  ∧ fs_ops (save_state Sample.paths state w).2 = []
  ∧ files (save_state Sample.paths state w).2 = files w.
Proof. vm_compute. done. Qed.


(** C10: whatever a switch, toggle, rename or delete command, or
    [record_last_context] itself, writes goes to the state file and is the
    serialization of a mapping that has, for every key other than
    [last_context], exactly what the state loaded before had. *)
Theorem writes_touch_last_context_only `{Platform} (paths : KctxPaths) (w : World) :
  (∀ current, writes_keep_other_keys paths w (record_last_context paths current w).2)
  ∧ (∀ cmd, writes_keep_other_keys paths w (run_command paths cmd w).2).
Proof.
  assert (∀ current w0,
    fs_ops w0 = fs_ops w → files w0 = files w →
    writes_keep_other_keys paths w (record_last_context paths current w0).2) as Hrecord.
  { intros [previous|] w0 Hlog Hfiles; [|by apply no_new_ops_keep].
    rewrite record_last_context_run.
    destruct (save_state _ _ _) as [r w'] eqn:Hsave.
    apply (save_state_keeps _ _ _ _ _ _ Hlog) in Hsave; [done|].
    intros key Hkey. by rewrite lookup_insert_ne, (persisted_ext paths w0 w Hfiles). }
  split; [intros current; by apply Hrecord|].
  intros [target | old new | name]; cbn [run_command].
  - rewrite switch_context_command_run.
    destruct (switch_target paths target w) as [goal|]; [|by apply no_new_ops_keep].
    cbn zeta. destruct (_ =? 0); [|by apply no_new_ops_keep].
    specialize (Hrecord (known_current w) (called (argv_use goal) (after_query w))
                  eq_refl eq_refl).
    destruct (record_last_context _ _ _) as [[[]|e] recorded]; [|done].
    intros path text. cbn [snd]. unfold new_ops.
    destruct (announced_frame paths recorded) as (_ & -> & _). apply Hrecord.
  - rewrite rename_context_command_run. cbn zeta.
    destruct (_ =? 0); [|by apply no_new_ops_keep].
    destruct (decide _); [|by apply no_new_ops_keep].
    destruct (save_state _ _ _) as [r saved] eqn:Hsave.
    apply (save_state_keeps paths _ w) in Hsave; [by destruct r as [[]|]|done|].
    intros key Hkey. by rewrite lookup_insert_ne.
  - rewrite delete_context_command_run. cbn zeta.
    destruct (_ =? 0); [|by apply no_new_ops_keep].
    destruct (decide _); [|by apply no_new_ops_keep].
    destruct (save_state _ _ _) as [r saved] eqn:Hsave.
    apply (save_state_keeps paths _ w) in Hsave; [by destruct r as [[]|]|done|].
    intros key Hkey. by rewrite lookup_delete_ne.
Qed.

Lemma writes_touch_last_context_only_witness :
  ∃ saved : gmap string string,
    json_dumps (<["last_context" := "a"]> (persisted Sample.paths Sample.settled)) 2 true
    = json_dumps saved 2 true
    ∧ saved !! "theme" = Some "dark".
Proof.
  destruct (writes_touch_last_context_only Sample.paths Sample.settled) as [_ Hcmd].
  destruct (Hcmd (Switch "-") (state_file Sample.paths)
              (json_dumps (<["last_context" := "a"]> (persisted Sample.paths Sample.settled))
                 2 true))
    as (_ & saved & Htext & Hkeys).
  - apply list_elem_of_lookup. exists 1%nat. vm_compute. reflexivity.
  - exists saved. split; [exact Htext|].
    rewrite Hkeys by discriminate. vm_compute. reflexivity.
Defined.

(** The toggle on the sample keeps the key it does not know. *)
Example toggle_keeps_theme_on_sample :
  persisted Sample.paths (switch_context_command Sample.paths "-" Sample.settled).2
  !! "theme" = Some "dark"
  ∧ persisted Sample.paths (switch_context_command Sample.paths "-" Sample.settled).2
    !! "last_context" = Some "a".
Proof. vm_compute. done. Qed.

(** * Beyond the claims: the adapter, the listing and [main] *)

Section Adapter.
Context `{Platform}.

(** ** [strip] *)

Lemma rstrip_idem (s : string) : Py.rstrip (Py.rstrip s) = Py.rstrip s.
Proof.
  induction s as [|c r IH]; [reflexivity|].
  cbn [Py.rstrip]. destruct (Py.rstrip r) as [|d r'] eqn:Hr.
  - destruct (Py.isspace c) eqn:Hc; [reflexivity|].
    cbn [Py.rstrip]. by rewrite Hc.
  - cbn [Py.rstrip] in IH |- *. by rewrite IH.
Qed.

Lemma lstrip_head (s : string) :
  Py.lstrip s = EmptyString
  ∨ ∃ c r, Py.lstrip s = String c r ∧ Py.isspace c = false.
Proof.
  induction s as [|c r IH]; [by left|].
  cbn [Py.lstrip]. destruct (Py.isspace c) eqn:Hc; [exact IH|].
  right. by exists c, r.
Qed.

Lemma rstrip_keeps_head (c : ascii) (r : string) :
  Py.isspace c = false → ∃ r', Py.rstrip (String c r) = String c r'.
Proof.
  intros Hc. cbn [Py.rstrip]. rewrite Hc.
  destruct (Py.rstrip r) as [|d r']; by eexists.
Qed.

Lemma strip_idem (s : string) : Py.strip (Py.strip s) = Py.strip s.
Proof.
  unfold Py.strip. destruct (lstrip_head s) as [-> | (c & r & -> & Hc)]; [reflexivity|].
  destruct (rstrip_keeps_head c r Hc) as [r' Hr]. rewrite Hr.
  cbn [Py.lstrip]. rewrite Hc, <- Hr. apply rstrip_idem.
Qed.

Lemma strip_clean (s : string) :
  Py.is_empty (Py.strip s) = false → clean (Py.strip s).
Proof.
  intros Hne. split; [apply strip_idem|]. intros Heq. by rewrite Heq in Hne.
Qed.

Lemma current_of_clean (completed : CompletedProcess) (name : string) :
  current_of completed = Some name → clean name.
Proof.
  unfold current_of. destruct (negb _); [discriminate|].
  destruct (Py.is_empty _) eqn:Hne; [discriminate|].
  intros [= <-]. by apply strip_clean.
Qed.

(** ** [get_contexts] *)

Lemma get_contexts_run (w : World) :
  get_contexts w =
    (match listed w with
     | Some names => Ok names
     | None => Raise (RuntimeError (list_failure (outcome argv_list w)))
     end, called argv_list w).
Proof.
  unfold get_contexts, run_kubectl, listed.
  rewrite (bind_ok _ _ _ _ _ (subprocess_called _ w)).
  fold argv_list. destruct (_ =? 0); reflexivity.
Qed.

Lemma contexts_of_clean (out : string) : Forall clean (contexts_of out).
Proof.
  apply List.Forall_forall. intros name [Hin Hne]%filter_In.
  apply in_map_iff in Hin as (line & <- & _).
  apply strip_clean. by destruct (Py.is_empty (Py.strip line)).
Qed.

Lemma splitlines_line (name rest : string) :
  one_line name = true →
  Py.splitlines (name +:+ String (ascii_of_nat 10) rest) = name :: Py.splitlines rest.
Proof.
  induction name as [|c name IH]; intros Hone.
  - cbn. by destruct rest.
  - cbn [one_line] in Hone. apply andb_true_iff in Hone as [Hc Hone].
    apply negb_true_iff in Hc.
    rewrite append_cons. cbn [Py.splitlines]. rewrite Hc. by rewrite (IH Hone).
Qed.

Lemma splitlines_unlines (names : list string) :
  Forall (λ name, one_line name = true) names →
  Py.splitlines (unlines names) = names.
Proof.
  induction 1 as [|name names Hone _ IH]; [reflexivity|].
  cbn [unlines foldr]. rewrite (splitlines_line _ _ Hone). by f_equal.
Qed.

Lemma contexts_of_unlines (names : list string) :
  Forall clean names → Forall (λ name, one_line name = true) names →
  contexts_of (unlines names) = names.
Proof.
  intros Hclean Hone. unfold contexts_of. rewrite (splitlines_unlines _ Hone).
  clear Hone. induction Hclean as [|name names [Hstrip Hne] _ IH]; [reflexivity|].
  cbn [map List.filter]. rewrite Hstrip.
  destruct name; [done|]. cbn. by f_equal.
Qed.

(** ** The listing *)

Lemma for_each_prints {A : Type} (items : list A) (body : A → M unit)
    (line : A → string) (w : World) :
  (∀ x w0, body x w0 = (Ok tt, to_stdout (line x) w0)) →
  ∃ w',
    for_each items body w = (Ok tt, w')
    ∧ sys_stdout w' = sys_stdout w ++ map line items
    ∧ sys_stderr w' = sys_stderr w
    ∧ calls w' = calls w
    ∧ files w' = files w
    ∧ fs_ops w' = fs_ops w.
Proof.
  intros Hbody. revert w. induction items as [|x items IH]; intros w.
  - exists w. cbn. by rewrite app_nil_r.
  - destruct (IH (to_stdout (line x) w)) as (w' & Hrun & Hout & Herr & Hcalls & Hfiles & Hops).
    exists w'. cbn [for_each]. rewrite (bind_ok _ _ _ _ _ (Hbody x w)), Hrun.
    split; [reflexivity|]. rewrite Hout, Herr, Hcalls, Hfiles, Hops. cbn.
    by rewrite <- app_assoc.
Qed.

Lemma format_env_label_nonempty (env : string) (use_color : bool) :
  Py.is_empty (format_env_label env use_color) = false.
Proof.
  unfold format_env_label. destruct use_color; cbn [negb]; [|reflexivity].
  cbn zeta. destruct (String.eqb _ "prod"); [reflexivity|].
  destruct (orb _ _); [reflexivity|]. destruct (orb _ _); reflexivity.
Qed.

Lemma marker_column_nonempty (is_current is_last : bool) :
  Py.is_empty (marker_column is_current is_last) = false.
Proof. by destruct is_current, is_last. Qed.

(** What the listing does, in both outcomes of [get_contexts]. *)
Lemma list_contexts_command_run (paths : KctxPaths) (w : World) :
  ∃ w',
    list_contexts_command paths w
    = (Ok (match listed w with Some _ => 0 | None => 1 end), w')
    ∧ files w' = files w
    ∧ fs_ops w' = fs_ops w
    ∧ match listed w with
      | Some names =>
          sys_stdout w'
          = sys_stdout w
            ++ map (context_line (known_current (called argv_list w))
                      (persisted paths w !! "last_context") (labels_of paths w)
                      (stdout_isatty w)) names
          ∧ sys_stderr w' = sys_stderr w
          ∧ calls w'
            = calls w ++ [(argv_list, outcome argv_list w);
                          (argv_current, outcome argv_current (called argv_list w))]
      | None =>
          sys_stdout w' = sys_stdout w
          ∧ sys_stderr w' = sys_stderr w ++ [list_failure (outcome argv_list w)]
          ∧ calls w' = calls w ++ [(argv_list, outcome argv_list w)]
      end.
Proof.
  unfold list_contexts_command.
  unfold mbind at 1, M_bind at 1. unfold try_except.
  unfold mbind at 1, M_bind at 1. rewrite get_contexts_run.
  destruct (listed w) as [names|]; cbn [is_RuntimeError exn_str].
  - cbn [mret M_ret].
    rewrite (bind_ok _ _ _ _ _ (get_current_context_run (called argv_list w))).
    rewrite (bind_ok _ _ _ _ _ (get_last_context_run paths _)).
    rewrite (bind_ok _ _ _ _ _ (load_labels_run paths _)).
    unfold mbind at 1, M_bind at 1.
    rewrite (persisted_ext paths _ w), (labels_of_ext paths _ w) by reflexivity.
    set (current := known_current (called argv_list w)).
    set (last := persisted paths w !! "last_context").
    set (labels := labels_of paths w).
    match goal with
    | |- context [for_each names ?body] =>
        destruct (for_each_prints names body
                    (context_line current last labels (stdout_isatty w))
                    (after_query (called argv_list w)))
          as (w' & Hrun & Hout & Herr & Hcalls & Hfiles & Hops)
    end.
    { intros name w0. cbn zeta. unfold context_line, marker_column.
      replace (match last with
               | Some last0 => bool_decide (name = last0)
               | None => false
               end) with (bool_decide (last = Some name)).
      2:{ destruct last as [l|]; [|done].
          apply bool_decide_ext. split; [by intros [= ->] | by intros ->]. }
      destruct (labels !! name) as [env|].
      - rewrite format_env_label_nonempty.
        by destruct (bool_decide (current = Some name)), (bool_decide (last = Some name)).
      - by destruct (bool_decide (current = Some name)), (bool_decide (last = Some name)). }
    exists w'. unfold mbind, M_bind. rewrite Hrun. cbn [mret M_ret].
    split; [reflexivity|]. rewrite Hout, Herr, Hcalls, Hfiles, Hops. cbn.
    by rewrite <- app_assoc.
  - eexists. cbn. split; [reflexivity|]. done.
Qed.

Lemma context_line_layout (current last : option string) (labels : gmap string string)
    (use_color : bool) (name : string) :
  context_line current last labels use_color name
  = (if bool_decide (current = Some name)
     then if bool_decide (last = Some name) then "● ◌" else "●  "
     else if bool_decide (last = Some name) then "◌  " else "   ")
    +:+ " "
    +:+ match labels !! name with
        | Some env => Py.ljust 8 (format_env_label env use_color) +:+ " " +:+ name
        | None => name
        end.
Proof.
  unfold context_line.
  destruct (labels !! name);
    by destruct (bool_decide (current = Some name)), (bool_decide (last = Some name)).
Qed.

Lemma context_line_ends_with_name (current last : option string)
    (labels : gmap string string) (use_color : bool) (name : string) :
  ∃ before, context_line current last labels use_color name = before +:+ " " +:+ name.
Proof.
  unfold context_line. destruct (labels !! name) as [env|].
  - exists (marker_column (bool_decide (current = Some name)) (bool_decide (last = Some name))
            +:+ " " +:+ Py.ljust 8 (format_env_label env use_color)).
    by rewrite !append_assoc.
  - by eexists.
Qed.

(** ** What [main] may touch *)


Lemma touches_refl (paths : KctxPaths) (w w' : World) :
  files w' = files w → fs_ops w' = fs_ops w → touches_state_only paths w w'.
Proof. intros Hfiles Hops. exists []. by rewrite app_nil_r. Qed.

Lemma touches_frame (paths : KctxPaths) (w w0 w1 w' : World) :
  touches_state_only paths w0 w1 →
  files w0 = files w → fs_ops w0 = fs_ops w →
  files w' = files w1 → fs_ops w' = fs_ops w1 →
  touches_state_only paths w w'.
Proof.
  intros (ops & Hops & Hfiles & Hall) Hf0 Ho0 Hf1 Ho1. exists ops.
  by rewrite Hf1, Ho1, <- Hf0, <- Ho0.
Qed.

Lemma mkdirs_are_state_ops (paths : KctxPaths) (dirs : list string) :
  (∀ dir, dir ∈ dirs → dir ∈ base_dirs paths) →
  Forall (state_op paths) (OpMkdir <$> dirs).
Proof.
  intros Hdirs. apply Forall_fmap, Forall_forall. intros dir Hin. left.
  exists dir. split; [done | by apply Hdirs].
Qed.

Lemma save_state_touches (paths : KctxPaths) (state : gmap string string)
    (w w' : World) (r : Res unit) :
  save_state paths state w = (r, w') → touches_state_only paths w w'.
Proof.
  intros Hsave.
  apply save_state_inv in Hsave
    as [_ [(-> & Hops & Hfiles & _) | [_ (dirs & Hdirs & Hops & Hfiles)]]].
  - exists (save_ops paths state w). split; [done|]. split; [done|].
    unfold save_ops. apply Forall_app. split.
    + apply mkdirs_are_state_ops. intros dir Hin. unfold missing_dirs in Hin.
      rewrite elem_of_reverse in Hin. by apply missing_above_chain in Hin.
    + apply Forall_cons_2; [right; by left|].
      apply Forall_cons_2; [right; right; by eexists | apply Forall_nil_2].
  - exists (OpMkdir <$> dirs). split; [done|]. split; [done|].
    by apply mkdirs_are_state_ops.
Qed.

Lemma record_last_context_touches (paths : KctxPaths) (current : option string)
    (w w' : World) (r : Res unit) :
  record_last_context paths current w = (r, w') → touches_state_only paths w w'.
Proof.
  destruct current as [previous|].
  - rewrite record_last_context_run. apply save_state_touches.
  - intros [= <- <-]. by apply touches_refl.
Qed.

(** Each of the commands changes the files by state operations only and,
    when it returns, returns 0 or 1. *)
Lemma switch_context_command_bounds (paths : KctxPaths) (target : string)
    (w w' : World) (r : Res Z) :
  switch_context_command paths target w = (r, w') →
  touches_state_only paths w w' ∧ ∀ code, r = Ok code → code = 0 ∨ code = 1.
Proof.
  rewrite switch_context_command_run.
  destruct (switch_target paths target w) as [name|].
  - cbn zeta. destruct (_ =? 0).
    + destruct (record_last_context _ _ _) as [[[]|e] recorded] eqn:Hrec;
        intros [= <- <-];
        apply record_last_context_touches in Hrec.
      * split; [|intros code [= <-]; by left].
        destruct (announced_frame paths recorded) as (Hf & Ho & _).
        by apply (touches_frame _ _ _ _ _ Hrec).
      * split; [|done]. by apply (touches_frame _ _ _ _ _ Hrec).
    + intros [= <- <-]. split; [by apply touches_refl|]. intros code [= <-]. by right.
  - intros [= <- <-]. split; [by apply touches_refl|]. intros code [= <-]. by right.
Qed.

Lemma rename_context_command_bounds (old new : string) (paths : KctxPaths)
    (w w' : World) (r : Res Z) :
  rename_context_command old new paths w = (r, w') →
  touches_state_only paths w w' ∧ ∀ code, r = Ok code → code = 0 ∨ code = 1.
Proof.
  rewrite rename_context_command_run. cbn zeta. destruct (_ =? 0).
  - destruct (decide _).
    + destruct (save_state _ _ _) as [[[]|err] saved] eqn:Hsave;
        intros [= <- <-]; apply save_state_touches in Hsave.
      * split; [|intros code [= <-]; by left]. by apply (touches_frame _ _ _ _ _ Hsave).
      * split; [|done]. by apply (touches_frame _ _ _ _ _ Hsave).
    + intros [= <- <-]. split; [by apply touches_refl|]. intros code [= <-]. by left.
  - intros [= <- <-]. split; [by apply touches_refl|]. intros code [= <-]. by right.
Qed.

Lemma delete_context_command_bounds (name : string) (paths : KctxPaths)
    (w w' : World) (r : Res Z) :
  delete_context_command name paths w = (r, w') →
  touches_state_only paths w w' ∧ ∀ code, r = Ok code → code = 0 ∨ code = 1.
Proof.
  rewrite delete_context_command_run. cbn zeta. destruct (_ =? 0).
  - destruct (decide _).
    + destruct (save_state _ _ _) as [[[]|err] saved] eqn:Hsave;
        intros [= <- <-]; apply save_state_touches in Hsave.
      * split; [|intros code [= <-]; by left]. by apply (touches_frame _ _ _ _ _ Hsave).
      * split; [|done]. by apply (touches_frame _ _ _ _ _ Hsave).
    + intros [= <- <-]. split; [by apply touches_refl|]. intros code [= <-]. by left.
  - intros [= <- <-]. split; [by apply touches_refl|]. intros code [= <-]. by right.
Qed.

(** The two commands that only read. *)
Lemma current_context_command_reads (w w' : World) (r : Res Z) :
  current_context_command w = (r, w') →
  files w' = files w ∧ fs_ops w' = fs_ops w
  ∧ calls w' = calls w ++ [(argv_current, outcome argv_current w)]
  ∧ ∀ code, r = Ok code → code = 0 ∨ code = 1.
Proof.
  unfold current_context_command.
  rewrite (bind_ok _ _ _ _ _ (get_current_context_run w)).
  destruct (known_current w) as [name|]; intros [= <- <-];
    (repeat split; [intros code [= <-]; auto]).
Qed.

Lemma list_contexts_command_reads (paths : KctxPaths) (w w' : World) (r : Res Z) :
  list_contexts_command paths w = (r, w') →
  files w' = files w ∧ fs_ops w' = fs_ops w
  ∧ (∃ made, calls w' = calls w ++ made
             ∧ Forall (λ call, call.1 = argv_list ∨ call.1 = argv_current) made)
  ∧ ∀ code, r = Ok code → code = 0 ∨ code = 1.
Proof.
  destruct (list_contexts_command_run paths w) as (w0 & Hrun & Hfiles & Hops & Hrest).
  rewrite Hrun. intros [= <- <-]. split; [done|]. split; [done|]. split.
  - destruct (listed w); destruct Hrest as (_ & _ & ->); eexists; (split; [reflexivity|]);
      repeat apply Forall_cons_2; cbn; auto.
  - intros code [= <-]. destruct (listed w); auto.
Qed.




(** [main] as a whole. *)
Lemma main_bounds (args : Namespace) (home_dir : string) (w w' : World) (r : Res Z) :
  main args home_dir w = (r, w') →
  touches_state_only (determine_paths home_dir) w w'
  ∧ ∀ code, r = Ok code → code = 0 ∨ code = 1.
Proof.
  unfold main. cbn zeta. destruct (arg_current args).
  { intros (Hf & Ho & _ & Hcode)%current_context_command_reads.
    split; [by apply touches_refl | done]. }
  destruct (arg_rename args) as [[old_name new_name]|];
    [apply rename_context_command_bounds|].
  destruct (arg_delete args) as [delete_name|]; [apply delete_context_command_bounds|].
  destruct (arg_target args) as [target|]; [apply switch_context_command_bounds|].
  intros (Hf & Ho & _ & Hcode)%list_contexts_command_reads.
  split; [by apply touches_refl | done].
Qed.

(** ** The label table, entry by entry *)

Lemma items_get_absent {V : Type} (name : string) (items : list (string * V)) :
  name ∉ items.*1 → items_get name items = None.
Proof.
  induction items as [|[k v] items IH]; [done|].
  cbn. intros Hnot. apply not_elem_of_cons in Hnot as [Hne Hnot].
  destruct (decide (k = name)); [congruence|]. by apply IH.
Qed.

Lemma add_label_lookup (labels : gmap string string) (k : string) (cfg : toml)
    (name : string) :
  add_label labels (k, cfg) !! name
  = if decide (k = name)
    then match entry_env cfg with Some env => Some env | None => labels !! name end
    else labels !! name.
Proof.
  unfold add_label, entry_env.
  destruct cfg as [| cfg_items |]; try (by destruct (decide (k = name))).
  destruct (items_get "env" cfg_items) as [[env | |]|];
    try (by destruct (decide (k = name))).
  destruct (decide (k = name)) as [->|Hne];
    [by rewrite lookup_insert_eq | by rewrite lookup_insert_ne].
Qed.

Lemma labels_fold_lookup (table : list (string * toml)) (labels : gmap string string)
    (name : string) :
  NoDup table.*1 →
  foldl add_label labels table !! name
  = match items_get name table with
    | Some cfg => match entry_env cfg with Some env => Some env | None => labels !! name end
    | None => labels !! name
    end.
Proof.
  revert labels. induction table as [|[k cfg] table IH]; intros labels Hnodup; [done|].
  cbn [fmap list_fmap fst] in Hnodup. apply NoDup_cons in Hnodup as [Hfresh Hnodup].
  cbn [foldl items_get]. rewrite (IH _ Hnodup), add_label_lookup.
  destruct (decide (k = name)) as [->|Hne]; [|done].
  by rewrite (items_get_absent name table Hfresh).
Qed.

(** ** Composing the commands *)

Lemma switch_step (paths : KctxPaths) (target : string) (w w' : World)
    (current name : string) :
  query_is_pure → switch_takes_effect name →
  known_current w = Some current →
  switch_target paths target w = Some name →
  reads_back (<["last_context" := current]> (persisted paths w)) →
  switch_context_command paths target w = (Ok 0, w') →
  known_current w' = Some name
  ∧ persisted paths w' = <["last_context" := current]> (persisted paths w).
Proof.
  intros Hpure Heffect Hcurrent Htarget Hback
    (name' & recorded & Hname & Hcode & Hrec & ->)%switch_success.
  rewrite Htarget in Hname. injection Hname as <-.
  rewrite Hcurrent in Hrec.
  apply record_last_context_inv in Hrec as [(Hkube & _) Hrec]. cbn zeta in Hrec.
  rewrite (persisted_ext paths _ w) in Hrec by reflexivity.
  destruct Hrec as [(_ & _ & _ & Hstate & _) | [[e [=]] _]].
  destruct (announced_frame paths recorded) as (Hfiles & _ & _ & Hk & _).
  split.
  - rewrite known_current_outcome. unfold outcome.
    rewrite Hk, (after_query_kube _ Hpure), Hkube. by apply Heffect.
  - rewrite (persisted_text paths _ (json_dumps (<["last_context" := current]>
                                                   (persisted paths w)) 2 true)).
    + apply Hback.
    + by rewrite Hfiles.
Qed.

Lemma switch_calls (paths : KctxPaths) (target name : string) (w w' : World) (r : Res Z) :
  switch_target paths target w = Some name →
  switch_context_command paths target w = (r, w') →
  ∃ rest,
    calls w'
    = calls w ++ [(argv_current, outcome argv_current w);
                  (argv_use name, outcome (argv_use name) (after_query w))] ++ rest.
Proof.
  intros Htarget. rewrite switch_context_command_run, Htarget. cbn zeta.
  destruct (_ =? 0).
  - destruct (record_last_context _ _ _) as [[[]|e] recorded] eqn:Hrec;
      intros [= <- <-];
      apply record_last_context_inv in Hrec as [(_ & Hcalls & _) _].
    + destruct (announced_frame paths recorded) as (_ & _ & -> & _).
      rewrite Hcalls. eexists. cbn. by rewrite <- !app_assoc.
    + rewrite Hcalls. exists []. cbn. by rewrite <- !app_assoc.
  - intros [= <- <-]. exists []. cbn. by rewrite <- !app_assoc.
Qed.

Lemma rename_saves (old new : string) (paths : KctxPaths) (w w' : World) :
  rename_context_command old new paths w = (Ok 0, w') →
  persisted paths w !! "last_context" = Some old →
  files w' !! state_file paths
  = Some (Text (json_dumps (<["last_context" := new]> (persisted paths w)) 2 true)).
Proof.
  rewrite rename_context_command_run. cbn zeta. intros Hrun Hlast.
  destruct (_ =? 0); [|discriminate].
  destruct (decide _) as [_|Hno]; [|done].
  destruct (save_state _ _ _) as [[[]|err] saved] eqn:Hsave; [|discriminate].
  injection Hrun as <-.
  by apply save_state_inv in Hsave as [_ [(_ & _ & _ & Hstate & _) | [[err [=]] _]]].
Qed.

Lemma delete_saves (name : string) (paths : KctxPaths) (w w' : World) :
  delete_context_command name paths w = (Ok 0, w') →
  persisted paths w !! "last_context" = Some name →
  files w' !! state_file paths
  = Some (Text (json_dumps (delete "last_context" (persisted paths w)) 2 true)).
Proof.
  rewrite delete_context_command_run. cbn zeta. intros Hrun Hlast.
  destruct (_ =? 0); [|discriminate].
  destruct (decide _) as [_|Hno]; [|done].
  destruct (save_state _ _ _) as [[[]|err] saved] eqn:Hsave; [|discriminate].
  injection Hrun as <-.
  by apply save_state_inv in Hsave as [_ [(_ & _ & _ & Hstate & _) | [[err [=]] _]]].
Qed.

(** ** The colours *)

Lemma colours_differ :
  ANSI_GREEN ≠ ANSI_RED ∧ ANSI_YELLOW ≠ ANSI_RED ∧ ANSI_CYAN ≠ ANSI_RED.
Proof. repeat split; vm_compute; discriminate. Qed.

(** ** The label table, case by case *)

Lemma labels_of_cases (paths : KctxPaths) (w : World) :
  labels_of paths w
  = match tomllib with
    | None => ∅
    | Some toml_loads =>
        match files w !! config_file paths with
        | Some (Text raw) =>
            match toml_loads raw with
            | Some data =>
                match items_get "contexts" data with
                | Some (TTable table) => foldl add_label ∅ table
                | _ => ∅
                end
            | None => ∅
            end
        | _ => ∅
        end
    end.
Proof.
  unfold labels_of, load_labels. destruct tomllib as [toml_loads|]; [|done].
  unfold path_exists, read_text, try_except, mbind, M_bind, mret, M_ret, raise.
  destruct (files w !! config_file paths) as [[| raw |] |] eqn:Hnode;
    repeat (progress (cbn; rewrite ?Hnode)); try done.
  destruct (toml_loads raw) as [data|]; cbn; [|done].
  by destruct (items_get "contexts" data) as [[]|].
Qed.

End Adapter.

(** X1: a name that [get_current_context] returns is never empty and has
    no white space around it: stripping it again changes nothing. *)
Theorem current_context_is_clean `{Platform} (w : World) (name : string) :
  known_current w = Some name →
  name ≠ EmptyString ∧ Py.strip name = name.
Proof.
  rewrite known_current_outcome. intros [Hstrip Hne]%current_of_clean. done.
Qed.

Lemma current_context_is_clean_witness :
  "a" ≠ EmptyString ∧ Py.strip "a" = "a".
Proof.
  apply (current_context_is_clean Sample.settled "a"). vm_compute. reflexivity.
Defined.

(** X2: [current_context_command] runs the one query and nothing else.
    With a current context it prints the name on [stdout] and returns 0;
    without one it prints "No current context" on [stderr] and returns 1.
    It never touches a file. *)
Theorem current_context_command_reports `{Platform} (w : World) :
  ∃ code w',
    current_context_command w = (Ok code, w')
    ∧ match known_current w with
      | Some name =>
          code = 0 ∧ sys_stdout w' = sys_stdout w ++ [name]
          ∧ sys_stderr w' = sys_stderr w
      | None =>
          code = 1 ∧ sys_stdout w' = sys_stdout w
          ∧ sys_stderr w' = sys_stderr w ++ ["No current context"]
      end
    ∧ calls w' = calls w ++ [(argv_current, outcome argv_current w)]
    ∧ files w' = files w
    ∧ fs_ops w' = fs_ops w.
Proof.
  unfold current_context_command.
  rewrite (bind_ok _ _ _ _ _ (get_current_context_run w)).
  destruct (known_current w) as [name|]; do 2 eexists; (split; [reflexivity|]); done.
Qed.

(** X3: every context name [get_contexts] returns is non-empty and has no
    white space around it: blank lines of the tool's output are dropped and
    the others are stripped. *)
Theorem get_contexts_names_are_clean `{Platform} (w w' : World) (names : list string) :
  get_contexts w = (Ok names, w') →
  Forall (λ name, name ≠ EmptyString ∧ Py.strip name = name) names.
Proof.
  rewrite get_contexts_run. unfold listed.
  destruct (_ =? 0); [|discriminate]. intros [= <- _].
  eapply Forall_impl; [apply contexts_of_clean|]. by intros name [? ?].
Qed.

Lemma get_contexts_names_are_clean_witness :
  Forall (λ name, name ≠ EmptyString ∧ Py.strip name = name)
    ["a"; "b"; "prod-cluster"; "payments"].
Proof.
  apply (get_contexts_names_are_clean (H := Listing.platform) Listing.settled
           (get_contexts (H := Listing.platform) Listing.settled).2).
  apply run_eq. vm_compute. reflexivity.
Defined.

(** X4: when the tool exits 0 and prints one name per line, each a
    non-empty ASCII name without white space around it and without a line
    break inside, [get_contexts] returns exactly these names, in the order
    printed. *)
Theorem get_contexts_reads_the_lines `{Platform} (w : World) (names : list string) :
  returncode (outcome argv_list w) = 0 →
  stdout (outcome argv_list w) = unlines names →
  Forall (λ name, is_ascii name = true) names →
  Forall clean names →
  Forall (λ name, one_line name = true) names →
  get_contexts w = (Ok names, called argv_list w).
Proof.
  intros Hcode Hout _ Hclean Hone. rewrite get_contexts_run. unfold listed.
  apply Z.eqb_eq in Hcode. by rewrite Hcode, Hout, (contexts_of_unlines _ Hclean Hone).
Qed.

Lemma get_contexts_reads_the_lines_witness :
  get_contexts (H := Listing.platform) Listing.settled
  = (Ok ["a"; "b"; "prod-cluster"; "payments"],
     called (H := Listing.platform) argv_list Listing.settled).
Proof.
  apply (get_contexts_reads_the_lines (H := Listing.platform)).
  - reflexivity.
  - reflexivity.
  - by repeat constructor.
  - by repeat constructor.
  - by repeat constructor.
Defined.

(** X5: when [kubectl config get-contexts] exits non-zero, [get_contexts]
    raises a [RuntimeError] whose message ends with the tool's [stderr]
    text, stripped, or with "kubectl failed" when nothing is left. *)
Theorem get_contexts_failure `{Platform} (w : World) :
  returncode (outcome argv_list w) ≠ 0 →
  get_contexts w
  = (Raise (RuntimeError ("Failed to list contexts: "
                          +:+ error_text (outcome argv_list w))),
     called argv_list w)
  ∧ (Py.strip (stderr (outcome argv_list w)) ≠ EmptyString →
     error_text (outcome argv_list w) = Py.strip (stderr (outcome argv_list w)))
  ∧ (Py.strip (stderr (outcome argv_list w)) = EmptyString →
     error_text (outcome argv_list w) = "kubectl failed").
Proof.
  intros Hcode%Z.eqb_neq. rewrite get_contexts_run. unfold listed. rewrite Hcode.
  split; [reflexivity|]. split; [apply or_else_nonempty|].
  unfold error_text. by intros ->.
Qed.

Lemma get_contexts_failure_witness :
  get_contexts Sample.settled
  = (Raise (RuntimeError ("Failed to list contexts: "
                          +:+ error_text (outcome argv_list Sample.settled))),
     called argv_list Sample.settled)
  ∧ (Py.strip (stderr (outcome argv_list Sample.settled)) ≠ EmptyString →
     error_text (outcome argv_list Sample.settled)
     = Py.strip (stderr (outcome argv_list Sample.settled)))
  ∧ (Py.strip (stderr (outcome argv_list Sample.settled)) = EmptyString →
     error_text (outcome argv_list Sample.settled) = "kubectl failed").
Proof. apply get_contexts_failure. vm_compute. discriminate. Defined.

(** X6: when [get_contexts] fails, the listing prints nothing on [stdout]:
    it returns status 1 with the one failure line on [stderr], runs no
    further subprocess and touches no file. *)
Theorem listing_fails_whole `{Platform} (paths : KctxPaths) (w : World) :
  returncode (outcome argv_list w) ≠ 0 →
  ∃ w',
    list_contexts_command paths w = (Ok 1, w')
    ∧ sys_stdout w' = sys_stdout w
    ∧ sys_stderr w'
      = sys_stderr w ++ ["Failed to list contexts: " +:+ error_text (outcome argv_list w)]
    ∧ calls w' = calls w ++ [(argv_list, outcome argv_list w)]
    ∧ files w' = files w
    ∧ fs_ops w' = fs_ops w.
Proof.
  intros Hcode%Z.eqb_neq.
  destruct (list_contexts_command_run paths w) as (w' & Hrun & Hfiles & Hops & Hrest).
  unfold listed in Hrun, Hrest. rewrite Hcode in Hrun, Hrest.
  destruct Hrest as (Hout & Herr & Hcalls). by exists w'.
Qed.

Lemma listing_fails_whole_witness :
  ∃ w',
    list_contexts_command Sample.paths Sample.settled = (Ok 1, w')
    ∧ sys_stdout w' = sys_stdout Sample.settled
    ∧ sys_stderr w'
      = sys_stderr Sample.settled
        ++ ["Failed to list contexts: " +:+ error_text (outcome argv_list Sample.settled)]
    ∧ calls w' = calls Sample.settled ++ [(argv_list, outcome argv_list Sample.settled)]
    ∧ files w' = files Sample.settled
    ∧ fs_ops w' = fs_ops Sample.settled.
Proof. apply listing_fails_whole. vm_compute. discriminate. Defined.

(** X7: when [get_contexts] succeeds, the listing returns status 0 and
    prints exactly one line per context, in the order the adapter gave
    them, each line ending with a space and the context name; it prints
    nothing on [stderr], runs the two queries only and touches no file. *)
Theorem listing_passes_through `{Platform} (paths : KctxPaths) (w : World)
    (names : list string) :
  listed w = Some names →
  ∃ w' lines,
    list_contexts_command paths w = (Ok 0, w')
    ∧ sys_stdout w' = sys_stdout w ++ lines
    ∧ Forall2 (λ name line, ∃ before, line = before +:+ " " +:+ name) names lines
    ∧ sys_stderr w' = sys_stderr w
    ∧ calls w'
      = calls w ++ [(argv_list, outcome argv_list w);
                    (argv_current, outcome argv_current (called argv_list w))]
    ∧ files w' = files w
    ∧ fs_ops w' = fs_ops w.
Proof.
  intros Hlisted.
  destruct (list_contexts_command_run paths w) as (w' & Hrun & Hfiles & Hops & Hrest).
  rewrite Hlisted in Hrun, Hrest. destruct Hrest as (Hout & Herr & Hcalls).
  exists w'. eexists. split; [exact Hrun|]. split; [exact Hout|].
  split; [|done].
  apply Forall2_fmap_r, Forall_Forall2_diag, Forall_forall.
  intros name _. apply context_line_ends_with_name.
Qed.

Lemma listing_passes_through_witness :
  ∃ w' lines,
    list_contexts_command (H := Listing.platform) Sample.paths Listing.settled = (Ok 0, w')
    ∧ sys_stdout w' = sys_stdout Listing.settled ++ lines
    ∧ Forall2 (λ name line, ∃ before, line = before +:+ " " +:+ name)
        ["a"; "b"; "prod-cluster"; "payments"] lines
    ∧ sys_stderr w' = sys_stderr Listing.settled
    ∧ calls w'
      = calls Listing.settled
        ++ [(argv_list, outcome (H := Listing.platform) argv_list Listing.settled);
            (argv_current,
             outcome (H := Listing.platform) argv_current
               (called (H := Listing.platform) argv_list Listing.settled))]
    ∧ files w' = files Listing.settled
    ∧ fs_ops w' = fs_ops Listing.settled.
Proof.
  apply (listing_passes_through (H := Listing.platform)). vm_compute. reflexivity.
Defined.

(** X8: the layout of a line of the listing.  The first column is three
    characters wide: [●] for the current context, [◌] for the persisted last
    context, both when the context is both, blanks otherwise; then, for a
    labelled context, its label padded to eight characters; then the name. *)
Theorem listing_line_layout `{Platform} (paths : KctxPaths) (w w' : World)
    (names : list string) :
  listed w = Some names →
  list_contexts_command paths w = (Ok 0, w') →
  sys_stdout w'
  = sys_stdout w
    ++ map (λ name,
         (if bool_decide (known_current (called argv_list w) = Some name)
          then if bool_decide (persisted paths w !! "last_context" = Some name)
               then "● ◌" else "●  "
          else if bool_decide (persisted paths w !! "last_context" = Some name)
               then "◌  " else "   ")
         +:+ " "
         +:+ match labels_of paths w !! name with
             | Some env =>
                 Py.ljust 8 (format_env_label env (stdout_isatty w)) +:+ " " +:+ name
             | None => name
             end) names.
Proof.
  intros Hlisted Hrun.
  destruct (list_contexts_command_run paths w) as (w0 & Hrun0 & _ & _ & Hrest).
  rewrite Hlisted in Hrun0, Hrest. rewrite Hrun in Hrun0. injection Hrun0 as <-.
  destruct Hrest as (-> & _). f_equal. apply map_ext. intros name.
  apply context_line_layout.
Qed.

Lemma listing_line_layout_witness :
  sys_stdout (list_contexts_command (H := Listing.platform) Sample.paths Listing.settled).2
  = ["●   a"; "◌   [dev]    b"; "    [prod]   prod-cluster"; "    [PROD]   payments"].
Proof.
  rewrite (listing_line_layout (H := Listing.platform) Sample.paths Listing.settled _
             ["a"; "b"; "prod-cluster"; "payments"]).
  - vm_compute. reflexivity.
  - vm_compute. reflexivity.
  - apply run_eq. vm_compute. reflexivity.
Defined.

(** X9: whenever [main] returns, its exit status is 0 or 1, whatever the
    arguments and whatever the tool and the files hold. *)
Theorem main_exit_status `{Platform} (args : Namespace) (home_dir : string)
    (w w' : World) (code : Z) :
  main args home_dir w = (Ok code, w') → code = 0 ∨ code = 1.
Proof. intros [_ Hcode]%main_bounds. by apply Hcode. Qed.

Lemma main_exit_status_witness : (1 : Z) = 0 ∨ (1 : Z) = 1.
Proof.
  apply (main_exit_status
           {| arg_current := false; arg_rename := None; arg_delete := Some "zzz";
              arg_target := None |}
           "/home/dev" Sample.settled
           (main {| arg_current := false; arg_rename := None; arg_delete := Some "zzz";
                    arg_target := None |} "/home/dev" Sample.settled).2).
  apply run_eq. vm_compute. reflexivity.
Defined.

(** X10: the three paths that [determine_paths] derives from a home
    directory are pairwise distinct: the state file is never the label file,
    and neither is the base directory. *)
Theorem determine_paths_are_distinct (home_dir : string) :
  state_file (determine_paths home_dir) ≠ config_file (determine_paths home_dir)
  ∧ config_file (determine_paths home_dir) ≠ base_dir (determine_paths home_dir)
  ∧ state_file (determine_paths home_dir) ≠ base_dir (determine_paths home_dir).
Proof.
  cbn. unfold path_join. repeat split.
  - intros Heq. apply (inj (String.append _)) in Heq. discriminate.
  - by apply append_ne_self.
  - by apply append_ne_self.
Qed.


(** On the sample: a first switch in a home directory without [.config]
    makes [.config] and the base directory, and leaves the home directory
    itself as it was. *)
Example main_makes_the_directories_on_sample :
  let args := {| arg_current := false; arg_rename := None; arg_delete := None;
                 arg_target := Some "b" |} in
  (main args "/home/dev" Sample.bare).1 = Ok 0
  ∧ files (main args "/home/dev" Sample.bare).2 !! "/home/dev/.config" = Some Dir
  ∧ files (main args "/home/dev" Sample.bare).2 !! "/home/dev/.config/kctx" = Some Dir
  ∧ files (main args "/home/dev" Sample.bare).2 !! "/home/dev" = Some Dir
  ∧ files Sample.bare !! "/home/dev/.config" = None.
Proof. vm_compute. done. Qed.

(** X12: an invocation with [--current], or with no argument at all, only
    reads: it leaves every file as it was, logs no mutation, and the only
    subprocesses it runs are [get-contexts] and [current-context]. *)
Theorem main_read_only `{Platform} (args : Namespace) (home_dir : string) (w : World) :
  arg_current args = true
  ∨ (arg_rename args = None ∧ arg_delete args = None ∧ arg_target args = None) →
  files (main args home_dir w).2 = files w
  ∧ fs_ops (main args home_dir w).2 = fs_ops w
  ∧ ∃ made,
      calls (main args home_dir w).2 = calls w ++ made
      ∧ Forall (λ call, call.1 = argv_list ∨ call.1 = argv_current) made.
Proof.
  intros Hargs. destruct (main args home_dir w) as [r w'] eqn:Hmain. cbn [snd].
  unfold main in Hmain. cbn zeta in Hmain.
  destruct (arg_current args).
  - apply current_context_command_reads in Hmain as (Hf & Ho & Hc & _).
    split; [done|]. split; [done|]. eexists. split; [exact Hc|].
    apply Forall_cons_2; [by right | apply Forall_nil_2].
  - destruct Hargs as [[=] | (Hr & Hd & Ht)]. rewrite Hr, Hd, Ht in Hmain.
    by apply list_contexts_command_reads in Hmain as (Hf & Ho & Hc & _).
Qed.

Lemma main_read_only_witness :
  files (main (H := Listing.platform)
           {| arg_current := false; arg_rename := None; arg_delete := None;
              arg_target := None |} "/home/dev" Listing.settled).2
  = files Listing.settled
  ∧ fs_ops (main (H := Listing.platform)
              {| arg_current := false; arg_rename := None; arg_delete := None;
                 arg_target := None |} "/home/dev" Listing.settled).2
    = fs_ops Listing.settled
  ∧ ∃ made,
      calls (main (H := Listing.platform)
               {| arg_current := false; arg_rename := None; arg_delete := None;
                  arg_target := None |} "/home/dev" Listing.settled).2
      = calls Listing.settled ++ made
      ∧ Forall (λ call, call.1 = argv_list ∨ call.1 = argv_current) made.
Proof. apply (main_read_only (H := Listing.platform)). right. done. Defined.

(** X13: switch, then toggle.  With a tool whose [current-context] changes
    nothing and whose successful [use-context] of [A] or of [B] makes it
    answer that context: from context [A], a successful switch to [B]
    leaves the current context [B] and [A] persisted as [last_context], and
    a successful toggle after it leads back to [A] with [B] persisted.  The
    two states written are assumed to load as they were saved. *)
Theorem switch_then_toggle_returns `{Platform} (paths : KctxPaths) (w w1 w2 : World)
    (A B : string) :
  query_is_pure → switch_takes_effect A → switch_takes_effect B →
  B ≠ "-" →
  known_current w = Some A →
  switch_context_command paths B w = (Ok 0, w1) →
  switch_context_command paths "-" w1 = (Ok 0, w2) →
  reads_back (<["last_context" := A]> (persisted paths w)) →
  reads_back (<["last_context" := B]> (persisted paths w)) →
  known_current w1 = Some B
  ∧ persisted paths w1 !! "last_context" = Some A
  ∧ known_current w2 = Some A
  ∧ persisted paths w2 !! "last_context" = Some B.
Proof.
  intros Hpure HeffectA HeffectB Hdash HA Hfirst Hsecond Hback1 Hback2.
  assert (switch_target paths B w = Some B) as Htarget.
  { unfold switch_target. by apply String.eqb_neq in Hdash as ->. }
  destruct (switch_step paths B w w1 A B Hpure HeffectB HA Htarget Hback1 Hfirst)
    as [Hcur1 Hstate1].
  assert (persisted paths w1 !! "last_context" = Some A) as Hlast1
    by (by rewrite Hstate1, lookup_insert_eq).
  destruct (switch_step paths "-" w1 w2 B A Hpure HeffectA Hcur1) as [Hcur2 Hstate2];
    [exact Hlast1 | by rewrite Hstate1, insert_insert_eq | done |].
  by rewrite Hstate2, lookup_insert_eq.
Qed.

Lemma switch_then_toggle_returns_witness :
  let w1 := (switch_context_command Sample.paths "b" Sample.fresh).2 in
  let w2 := (switch_context_command Sample.paths "-" w1).2 in
  known_current w1 = Some "b"
  ∧ persisted Sample.paths w1 !! "last_context" = Some "a"
  ∧ known_current w2 = Some "a"
  ∧ persisted Sample.paths w2 !! "last_context" = Some "b".
Proof.
  apply (switch_then_toggle_returns Sample.paths Sample.fresh).
  - intros k. cbn. by destruct (Sample.current_context k).
  - intros k. cbn. destruct (bool_decide _); [reflexivity | discriminate].
  - intros k. cbn. destruct (bool_decide _); [reflexivity | discriminate].
  - discriminate.
  - vm_compute. reflexivity.
  - apply run_eq. vm_compute. reflexivity.
  - apply run_eq. vm_compute. reflexivity.
  - vm_compute. reflexivity.
  - vm_compute. reflexivity.
Defined.

(** X14: rename, then toggle.  After a successful rename of the context
    persisted as [last_context], a toggle asks the tool for the new name:
    its second subprocess is [use-context] with the new name. *)
Theorem rename_then_toggle_uses_new_name `{Platform} (old new : string)
    (paths : KctxPaths) (w w1 : World) :
  rename_context_command old new paths w = (Ok 0, w1) →
  persisted paths w !! "last_context" = Some old →
  reads_back (<["last_context" := new]> (persisted paths w)) →
  switch_target paths "-" w1 = Some new
  ∧ ∃ rest,
      calls (switch_context_command paths "-" w1).2
      = calls w1 ++ [(argv_current, outcome argv_current w1);
                     (argv_use new, outcome (argv_use new) (after_query w1))] ++ rest.
Proof.
  intros Hrename Hlast Hback.
  assert (switch_target paths "-" w1 = Some new) as Htarget.
  { unfold switch_target. cbn.
    rewrite (persisted_text paths _ _ (rename_saves _ _ _ _ _ Hrename Hlast)), Hback.
    apply lookup_insert_eq. }
  split; [done|].
  destruct (switch_context_command paths "-" w1) as [r w2] eqn:Hrun.
  by apply (switch_calls paths "-" new w1 w2 r).
Qed.

Lemma rename_then_toggle_uses_new_name_witness :
  let w1 := (rename_context_command "b" "b2" Sample.paths Sample.settled).2 in
  switch_target Sample.paths "-" w1 = Some "b2"
  ∧ ∃ rest,
      calls (switch_context_command Sample.paths "-" w1).2
      = calls w1 ++ [(argv_current, outcome argv_current w1);
                     (argv_use "b2", outcome (argv_use "b2") (after_query w1))] ++ rest.
Proof.
  apply (rename_then_toggle_uses_new_name "b" "b2" Sample.paths Sample.settled).
  - apply run_eq. vm_compute. reflexivity.
  - vm_compute. reflexivity.
  - vm_compute. reflexivity.
Defined.

(** X15: delete, then toggle.  After a successful delete of the context
    persisted as [last_context], a toggle finds nothing to toggle to: it
    returns status 1 with "No last context recorded yet.", runs only the
    query of the current context and leaves the files as they are. *)
Theorem delete_then_toggle_has_no_target `{Platform} (name : string) (paths : KctxPaths)
    (w w1 : World) :
  delete_context_command name paths w = (Ok 0, w1) →
  persisted paths w !! "last_context" = Some name →
  reads_back (delete "last_context" (persisted paths w)) →
  ∃ w2,
    switch_context_command paths "-" w1 = (Ok 1, w2)
    ∧ sys_stderr w2 = sys_stderr w1 ++ ["No last context recorded yet."]
    ∧ calls w2 = calls w1 ++ [(argv_current, outcome argv_current w1)]
    ∧ files w2 = files w1
    ∧ fs_ops w2 = fs_ops w1.
Proof.
  intros Hdelete Hlast Hback.
  assert (switch_target paths "-" w1 = None) as Htarget.
  { unfold switch_target. cbn.
    rewrite (persisted_text paths _ _ (delete_saves _ _ _ _ Hdelete Hlast)), Hback.
    apply lookup_delete_eq. }
  rewrite switch_context_command_run, Htarget. by eexists.
Qed.

Lemma delete_then_toggle_has_no_target_witness :
  ∃ w2,
    switch_context_command Sample.paths "-"
      (delete_context_command "b" Sample.paths Sample.settled).2 = (Ok 1, w2)
    ∧ sys_stderr w2
      = sys_stderr (delete_context_command "b" Sample.paths Sample.settled).2
        ++ ["No last context recorded yet."]
    ∧ calls w2
      = calls (delete_context_command "b" Sample.paths Sample.settled).2
        ++ [(argv_current,
             outcome argv_current (delete_context_command "b" Sample.paths Sample.settled).2)]
    ∧ files w2 = files (delete_context_command "b" Sample.paths Sample.settled).2
    ∧ fs_ops w2 = fs_ops (delete_context_command "b" Sample.paths Sample.settled).2.
Proof.
  apply (delete_then_toggle_has_no_target "b" Sample.paths Sample.settled).
  - apply run_eq. vm_compute. reflexivity.
  - vm_compute. reflexivity.
  - vm_compute. reflexivity.
Defined.

(** X16: what [record_last_context] records, [get_last_context] returns:
    after a successful [record_last_context] of a name, and provided the
    state written loads as it was saved, [get_last_context] answers that
    name and changes nothing. *)
Theorem record_then_get_last_context `{Platform} (paths : KctxPaths) (name : string)
    (w w' : World) :
  record_last_context paths (Some name) w = (Ok tt, w') →
  reads_back (<["last_context" := name]> (persisted paths w)) →
  get_last_context paths w' = (Ok (Some name), w').
Proof.
  intros Hrec Hback. rewrite get_last_context_run.
  apply record_last_context_inv in Hrec as [_ Hrec]. cbn zeta in Hrec.
  destruct Hrec as [(_ & _ & _ & Hstate & _) | [[e [=]] _]].
  by rewrite (persisted_text paths _ _ Hstate), Hback, lookup_insert_eq.
Qed.

Lemma record_then_get_last_context_witness :
  get_last_context Sample.paths
    (record_last_context Sample.paths (Some "payments") Sample.settled).2
  = (Ok (Some "payments"),
     (record_last_context Sample.paths (Some "payments") Sample.settled).2).
Proof.
  apply (record_then_get_last_context Sample.paths "payments" Sample.settled).
  - apply run_eq. vm_compute. reflexivity.
  - vm_compute. reflexivity.
Defined.

(** X17: what [save_state] saves, [load_state] loads: after a successful
    save of a mapping whose serialization parses back to it, [load_state]
    returns that mapping, whatever the state file held before. *)
Theorem save_then_load_state `{Platform} (paths : KctxPaths) (state : gmap string string)
    (w w' : World) :
  save_state paths state w = (Ok tt, w') →
  reads_back state →
  load_state paths w' = (Ok state, w').
Proof.
  intros Hsave Hback. rewrite load_state_run.
  apply save_state_inv in Hsave as [_ [(_ & _ & _ & Hstate & _) | [[e [=]] _]]].
  by rewrite (persisted_text paths _ _ Hstate), Hback.
Qed.

Lemma save_then_load_state_witness :
  load_state Sample.paths
    (save_state Sample.paths (<["last_context" := "a"]> (<["theme" := "light"]> ∅))
       Sample.settled).2
  = (Ok (<["last_context" := "a"]> (<["theme" := "light"]> ∅)),
     (save_state Sample.paths (<["last_context" := "a"]> (<["theme" := "light"]> ∅))
        Sample.settled).2).
Proof.
  apply (save_then_load_state Sample.paths _ Sample.settled).
  - apply run_eq. vm_compute. reflexivity.
  - vm_compute. reflexivity.
Defined.


(** X19: the label of a context is the [env] of its entry in the table
    [contexts], when that entry is a table whose [env] is a string; a
    context without an entry, or with an entry of any other shape, has no
    label, and such an entry is no error. *)
Theorem labels_follow_the_entries `{Platform} (paths : KctxPaths) (w : World)
    (toml_loads : string → option (list (string * toml))) (raw : string)
    (data table : list (string * toml)) (name : string) :
  tomllib = Some toml_loads →
  files w !! config_file paths = Some (Text raw) →
  toml_loads raw = Some data →
  items_get "contexts" data = Some (TTable table) →
  NoDup table.*1 →
  labels_of paths w !! name = items_get name table ≫= entry_env.
Proof.
  intros Hmodule Hnode Hdata Hcontexts Hnodup.
  rewrite labels_of_cases, Hmodule, Hnode, Hdata, Hcontexts.
  rewrite (labels_fold_lookup _ _ _ Hnodup), lookup_empty.
  destruct (items_get name table) as [cfg|]; [|done]. cbn.
  by destruct (entry_env cfg).
Qed.

Lemma labels_follow_the_entries_witness :
  labels_of Sample.paths Sample.fresh !! "payments" = Some "PROD"
  ∧ labels_of Sample.paths Sample.fresh !! "broken" = None
  ∧ labels_of Sample.paths Sample.fresh !! "a" = None.
Proof.
  pose (table := [("prod-cluster", TTable [("env", TString "prod")]);
                  ("payments", TTable [("env", TString "PROD")]);
                  ("b", TTable [("env", TString "dev")]);
                  ("broken", TTable [("env", TOther)])]).
  assert (∀ name,
            labels_of Sample.paths Sample.fresh !! name
            = items_get name table ≫= entry_env) as Hlabel.
  { intros name.
    apply (labels_follow_the_entries Sample.paths Sample.fresh Sample.toml_loads
             Sample.labels_toml [("contexts", TTable table)] table name).
    - reflexivity.
    - vm_compute. reflexivity.
    - vm_compute. reflexivity.
    - reflexivity.
    - apply (bool_decide_unpack _). vm_compute. exact I. }
  rewrite !Hlabel. done.
Defined.

(** X20: [format_env_label] never alters the label text.  Without colour
    it is the label in brackets; with colour it is that same text between
    one of four colour codes and the reset code, and the colour is red
    exactly for the [prod] tier, the one [warn_if_prod] warns about. *)
Theorem format_env_label_wraps (env : string) :
  format_env_label env false = "[" +:+ env +:+ "]"
  ∧ ∃ colour,
      colour ∈ [ANSI_RED; ANSI_GREEN; ANSI_YELLOW; ANSI_CYAN]
      ∧ format_env_label env true
        = colour +:+ format_env_label env false +:+ ANSI_RESET
      ∧ (colour = ANSI_RED ↔ is_prod (Some env) = true).
Proof.
  split; [reflexivity|]. unfold format_env_label, is_prod. cbn [negb]. cbn zeta.
  destruct colours_differ as (Hgreen & Hyellow & Hcyan).
  destruct (String.eqb (Py.lower env) "prod").
  { exists ANSI_RED. split; [set_solver|]. done. }
  destruct (orb _ _).
  { exists ANSI_GREEN. split; [set_solver|]. split; [done|]. by split. }
  destruct (orb _ _).
  { exists ANSI_YELLOW. split; [set_solver|]. split; [done|]. by split. }
  exists ANSI_CYAN. split; [set_solver|]. split; [done|]. by split.
Qed.
